(** * isa-geospatial-alerts: hazard classification and rainfall alert engine

    A shallow embedding of the algorithmic core of
    [src/dashboard/app.py] and [src/dashboard/procesar_raster.py].

    Numeric data (rainfall in millimetres, susceptibility values, map
    coordinates) are rationals [Q]: every finite float is a rational and
    the comparisons [>=], [>], [<=], [!=] the code performs are exact on
    finite floats.  Sums and interpolations of floats are rounded by the
    code: a property that depends on their value is stated for inputs on
    which binary64 arithmetic is exact (whole numbers below 2^53), and
    the rolling sum is also given on IEEE binary64 numbers
    ([RollingF64]).  In the exact model NaN appears only as a missing
    sample of a precipitation series. *)

From Stdlib Require Import String.
From Stdlib Require Import QArith Qround ZArith List Bool Lia Lqa Arith Sorted.
From Stdlib Require Floats.
Import ListNotations.
Open Scope Q_scope.

(** ** Threshold matrix and alert evaluation  (app.py) *)

Module Alert.

(** One row of the DataFrame returned by [cargar_umbrales]. *)
Record fila_umbral : Type := mk_fila {
  Amenaza_Nivel      : string;
  Umbral_Verde_mm    : Q;
  Umbral_Amarillo_mm : Q;
  Umbral_Rojo_mm     : Q
}.

Definition umbrales := list fila_umbral.

(** The default matrix built in [cargar_umbrales] when the CSV is absent
    (the same table [simular_datos.generar_umbrales_lluvia] writes). *)
Definition umbrales_por_defecto : umbrales :=
  [ mk_fila "Muy Baja" 200 250 300;
    mk_fila "Baja"     150 200 250;
    mk_fila "Media"    120 150 200;
    mk_fila "Alta"      80 100 120;
    mk_fila "Muy Alta"  60  80 100 ].

Inductive nivel_alerta : Type := VERDE | AMARILLA | ROJA.

Definition nivel_alerta_eqb (a b : nivel_alerta) : bool :=
  match a, b with
  | VERDE, VERDE | AMARILLA, AMARILLA | ROJA, ROJA => true
  | _, _ => false
  end.

(** [umbrales_df[umbrales_df['Amenaza_Nivel'] == amenaza]] *)
Definition seleccionar (umbrales_df : umbrales) (amenaza : string) : umbrales :=
  filter (fun f => String.eqb (Amenaza_Nivel f) amenaza) umbrales_df.

(** Python's [a >= b] on numbers. *)
Definition geb (a b : Q) : bool := Qle_bool b a.

(** [calcular_nivel_alerta(amenaza, lluvia_72h, umbrales_df)]: the triple
    (level, emoji, priority); the emoji is a function of the level and is
    left out. *)
Definition calcular_nivel_alerta (amenaza : string) (lluvia_72h : Q)
    (umbrales_df : umbrales) : nivel_alerta * Z :=
  match seleccionar umbrales_df amenaza with
  | [] => (VERDE, 0%Z)
  | umbral :: _ =>
      let umbral_rojo := Umbral_Rojo_mm umbral in
      let umbral_amarillo := Umbral_Amarillo_mm umbral in
      if geb lluvia_72h umbral_rojo then (ROJA, 3%Z)
      else if geb lluvia_72h umbral_amarillo then (AMARILLA, 2%Z)
      else (VERDE, 1%Z)
  end.

(** The closure [calcular_alerta_temporal(lluvia, amenaza)]; the matrix
    [umbrales_df] it captures is made an explicit argument. *)
Definition calcular_alerta_temporal (umbrales_df : umbrales)
    (lluvia : Q) (amenaza : string) : nivel_alerta :=
  match seleccionar umbrales_df amenaza with
  | [] => VERDE
  | umbral :: _ =>
      let umbral_rojo := Umbral_Rojo_mm umbral in
      let umbral_amarillo := Umbral_Amarillo_mm umbral in
      if geb lluvia umbral_rojo then ROJA
      else if geb lluvia umbral_amarillo then AMARILLA
      else VERDE
  end.

(** The decision the two functions share, on the boundaries of one row. *)
Definition decision (amarillo rojo v : Q) : nivel_alerta :=
  if geb v rojo then ROJA else if geb v amarillo then AMARILLA else VERDE.

End Alert.

(** ** Rolling 72-hour accumulation and dwell-time statistics  (app.py) *)

Module Rolling.
Import Alert.

(** A pandas float column: [None] is NaN. *)
Definition serie := list (option Q).

(** State of pandas' [roll_sum] kernel: the running sum and the number of
    non-NaN observations currently in the window. *)
Definition estado : Type := (Q * nat)%type.

Definition add_sum (val : option Q) (st : estado) : estado :=
  match val with
  | Some v => (fst st + v, S (snd st))
  | None => st
  end.

Definition remove_sum (val : option Q) (st : estado) : estado :=
  match val with
  | Some v => (fst st - v, pred (snd st))
  | None => st
  end.

Definition calc_sum (minp : nat) (st : estado) : option Q :=
  if (minp <=? snd st)%nat then Some (fst st) else None.

(** One forward pass: at index [i] the sample that left the window
    ([values[i - window]], when [window <= i]) is removed, [values[i]] is
    added, and the entry is emitted when at least [minp] observations are
    in the window. *)
Fixpoint roll_loop (values : serie) (window minp : nat)
    (pendientes : serie) (i : nat) (st : estado) : serie :=
  match pendientes with
  | [] => []
  | val :: resto =>
      let st1 :=
        if (window <=? i)%nat
        then match nth_error values (i - window) with
             | Some old => remove_sum old st
             | None => st
             end
        else st in
      let st2 := add_sum val st1 in
      calc_sum minp st2 :: roll_loop values window minp resto (S i) st2
  end.

(** [values.rolling(window=window, min_periods=minp).sum()] *)
Definition rolling_sum (window minp : nat) (values : serie) : serie :=
  roll_loop values window minp values 0%nat (0, 0%nat).

(** [df['precipitation'].rolling(window=72, min_periods=1).sum()] *)
Definition precip_acum_72h (precipitation : serie) : serie :=
  rolling_sum 72 1 precipitation.

(** [precip_acum_72h.apply(lambda x: calcular_alerta_temporal(x, amenaza))];
    on NaN both comparisons are false, so the level is VERDE. *)
Definition alerta_de (umbrales_df : umbrales) (amenaza : string)
    (x : option Q) : nivel_alerta :=
  match x with
  | Some lluvia => calcular_alerta_temporal umbrales_df lluvia amenaza
  | None => VERDE
  end.

Definition nivel_alerta_temporal (umbrales_df : umbrales) (amenaza : string)
    (acum : serie) : list nivel_alerta :=
  map (alerta_de umbrales_df amenaza) acum.

(** [(df['nivel_alerta_temporal'] == nivel).sum()] *)
Definition tiempo_en (nivel : nivel_alerta) (col : list nivel_alerta) : nat :=
  length (filter (nivel_alerta_eqb nivel) col).

Definition tiempo_roja := tiempo_en ROJA.
Definition tiempo_amarilla := tiempo_en AMARILLA.
Definition tiempo_verde := tiempo_en VERDE.

(** [tiempo/total_horas*100] *)
Definition porcentaje (tiempo total_horas : nat) : Q :=
  inject_Z (Z.of_nat tiempo) / inject_Z (Z.of_nat total_horas) * 100.

(** The whole block for the selected tower: accumulated series, alert
    column and the three dwell counts (roja, amarilla, verde). *)
Definition analisis_torre (umbrales_df : umbrales) (amenaza : string)
    (precipitation : serie) : serie * list nivel_alerta * (nat * nat * nat) :=
  let acum := precip_acum_72h precipitation in
  let col := nivel_alerta_temporal umbrales_df amenaza acum in
  (acum, col, (tiempo_roja col, tiempo_amarilla col, tiempo_verde col)).

(** The sum of the samples [lo .. i] of a NaN-free series, written
    directly: what the claims compare the forward pass with. *)
Definition suma (l : list Q) : Q := fold_right Qplus 0 l.

(** Samples [lo .. hi-1] of a series. *)
Definition tramo (lo hi : nat) (xs : list Q) : list Q :=
  firstn (hi - lo) (skipn lo xs).

(** The window that ends at index [i]: samples [max(0, i+1-window) .. i]. *)
Definition ventana (window : nat) (xs : list Q) (i : nat) : list Q :=
  tramo (S i - window) (S i) xs.

(** The end-to-end scenario: 2 mm/hour during the first 72 hours, then
    [m] dry hours; and the closed forms the accumulated series and the
    alert column are compared with ([i] is the 0-based sample index, hour
    [i+1]). *)
Definition lluvia_escenario (m : nat) : list Q := repeat 2 72 ++ repeat 0 m.

Definition horas_con_lluvia (i : nat) : nat :=
  if (i <? 72)%nat then S i else (143 - i)%nat.

Definition acumulado_escenario (i : nat) : Q :=
  2 * inject_Z (Z.of_nat (horas_con_lluvia i)).

Definition nivel_escenario (i : nat) : nivel_alerta :=
  if (i <? 49)%nat then VERDE
  else if (i <? 59)%nat then AMARILLA
  else if (i <? 84)%nat then ROJA
  else if (i <? 94)%nat then AMARILLA
  else VERDE.

End Rolling.

(** ** The rolling sum in binary64  (pandas' [roll_sum] kernel) *)

(** [Rolling.roll_loop] adds and removes in exact arithmetic: it gives
    the entries pandas gives whenever every running sum is exactly
    representable (whole numbers below 2^53, as in the scenarios).  On
    other samples pandas' entries carry the rounding of its float64
    running sum; they are computed here with the kernel's own steps
    (Kahan-compensated add and remove, and the product shortcut for a run
    of equal values) on IEEE binary64 numbers. *)
Module RollingF64.

Definition f64 : Set := PrimFloat.float.

(** The double of a small non-negative integer, and the double nearest to
    the decimal [n/d] (how a literal such as 2.4 is read). *)
Definition f64_of_Z (z : Z) : f64 := PrimFloat.of_uint63 (Uint63.of_Z z).

Definition decimal (n d : Z) : f64 := PrimFloat.div (f64_of_Z n) (f64_of_Z d).

(** The rational a finite double stands for. *)
Definition valor_exacto (x : f64) : option Q :=
  match FloatOps.Prim2SF x with
  | SpecFloat.S754_zero _ => Some 0
  | SpecFloat.S754_finite s m e =>
      Some ((if s then -1 else 1) * inject_Z (Zpos m) * Qpower 2 e)
  | _ => None
  end.

Definition valor (x : f64) : Q :=
  match valor_exacto x with
  | Some q => q
  | None => 0
  end.

Record estado : Set := mk_estado {
  sum_x : f64;
  nobs : nat;
  compensation_add : f64;
  compensation_remove : f64;
  num_consecutive_same_value : nat;
  prev_value : f64
}.

(** [val == val] is false on NaN only. *)
Definition add_sum (val : f64) (st : estado) : estado :=
  if PrimFloat.eqb val val then
    let y := PrimFloat.sub val (compensation_add st) in
    let t := PrimFloat.add (sum_x st) y in
    mk_estado t (S (nobs st))
              (PrimFloat.sub (PrimFloat.sub t (sum_x st)) y)
              (compensation_remove st)
              (if PrimFloat.eqb val (prev_value st)
               then S (num_consecutive_same_value st) else 1%nat)
              val
  else st.

Definition remove_sum (val : f64) (st : estado) : estado :=
  if PrimFloat.eqb val val then
    let y := PrimFloat.sub (PrimFloat.opp val) (compensation_remove st) in
    let t := PrimFloat.add (sum_x st) y in
    mk_estado t (pred (nobs st))
              (compensation_add st)
              (PrimFloat.sub (PrimFloat.sub t (sum_x st)) y)
              (num_consecutive_same_value st)
              (prev_value st)
  else st.

Definition calc_sum (minp : nat) (st : estado) : f64 :=
  if ((nobs st =? 0) && (minp =? 0))%nat then PrimFloat.zero
  else if (minp <=? nobs st)%nat then
    if (nobs st <=? num_consecutive_same_value st)%nat
    then PrimFloat.mul (prev_value st) (f64_of_Z (Z.of_nat (nobs st)))
    else sum_x st
  else PrimFloat.nan.

Fixpoint roll_loop (values : list f64) (window minp : nat)
    (pendientes : list f64) (i : nat) (st : estado) : list f64 :=
  match pendientes with
  | [] => []
  | val :: resto =>
      let st1 :=
        if (window <=? i)%nat
        then match nth_error values (i - window) with
             | Some old => remove_sum old st
             | None => st
             end
        else st in
      let st2 := add_sum val st1 in
      calc_sum minp st2 :: roll_loop values window minp resto (S i) st2
  end.

Definition rolling_sum (window minp : nat) (values : list f64) : list f64 :=
  roll_loop values window minp values 0%nat
            (mk_estado PrimFloat.zero 0 PrimFloat.zero PrimFloat.zero 0
                       (hd PrimFloat.zero values)).

(** [df['precipitation'].rolling(window=72, min_periods=1).sum()] on
    doubles. *)
Definition precip_acum_72h (precipitation : list f64) : list f64 :=
  rolling_sum 72 1 precipitation.

End RollingF64.

(** ** Raster classification, reprojection and sampling  (procesar_raster.py) *)

Module Raster.

(** Exceptions the pipeline can propagate.  [IndexError] is what
    [np.quantile] raises on an empty array; the repository defines no
    exception class of its own and [pipeline_completo] re-raises
    whatever it catches. *)
Inductive excepcion : Type := IndexError.

Inductive resultado (A : Type) : Type :=
| Ok (a : A)
| Raise (e : excepcion).
Arguments Ok {A} a.
Arguments Raise {A} e.

Definition bind {A B : Type} (m : resultado A) (k : A -> resultado B) : resultado B :=
  match m with
  | Ok a => k a
  | Raise e => Raise e
  end.

Notation "x <- m ;; k" := (bind m (fun x => k))
  (at level 61, m at next level, right associativity).

(** An affine geotransform [Affine(a, b, c, d, e, f)]:
    [x = a*col + b*row + c], [y = d*col + e*row + f]. *)
Record afin : Type := Affine {
  af_a : Q; af_b : Q; af_c : Q;
  af_d : Q; af_e : Q; af_f : Q
}.

(** A single-band raster dataset as rasterio opens it; the dataset
    declares a NoData value. *)
Record raster (A : Type) : Type := mk_raster {
  banda     : list (list A);
  nodata    : A;
  transform : afin;
  crs       : string
}.
Arguments mk_raster {A}.
Arguments banda {A}.
Arguments nodata {A}.
Arguments transform {A}.
Arguments crs {A}.

Definition height {A} (src : raster A) : nat := length (banda src).
Definition width {A} (src : raster A) : nat := length (hd [] (banda src)).

(** Python comparisons on numbers. *)
Definition gtb (a b : Q) : bool := negb (Qle_bool a b).
Definition leb (a b : Q) : bool := Qle_bool a b.
Definition neb (a b : Q) : bool := negb (Qeq_bool a b).

(** [data[data != NoData_value]]: the selected cells, flattened in
    row-major order. *)
Definition valores_reales (data : list (list Q)) (NoData_value : Q) : list Q :=
  filter (fun d => neb d NoData_value) (concat data).

(** *** [np.quantile], method 'linear' *)

(** The interpolation between the two neighbours is written in exact
    arithmetic.  numpy evaluates it in binary64 and takes the difference
    of the neighbours in the dtype of the band, where it can wrap on an
    integer band; the thresholds of a run are numpy's up to that, and the
    properties stated for a run do not depend on their value. *)

Fixpoint insertar (x : Q) (l : list Q) : list Q :=
  match l with
  | [] => [x]
  | y :: t => if Qle_bool x y then x :: l else y :: insertar x t
  end.

Definition ordenar (l : list Q) : list Q := fold_right insertar [] l.

Definition lerp (a b t : Q) : Q := a + (b - a) * t.

(** The virtual index [(n-1)*q], its neighbours clipped to the array as
    numpy's [_get_indexes] does, and the interpolation weight
    [virtual - floor(virtual)]. *)
Definition virtual_index (n : nat) (q : Q) : Q :=
  (inject_Z (Z.of_nat n) - 1) * q.

Definition get_indexes (n : nat) (virtual : Q) : nat * nat :=
  let ultimo := (n - 1)%nat in
  if Qle_bool (inject_Z (Z.of_nat n) - 1) virtual then (ultimo, ultimo)
  else if negb (Qle_bool 0 virtual) then (0%nat, 0%nat)
  else let previous := Z.to_nat (Qfloor virtual) in (previous, S previous).

Definition get_gamma (virtual : Q) : Q := virtual - inject_Z (Qfloor virtual).

Definition np_quantile (a : list Q) (q : Q) : resultado Q :=
  match a with
  | [] => Raise IndexError
  | _ :: _ =>
      let arr := ordenar a in
      let n := length a in
      let virtual := virtual_index n q in
      let '(previous, next) := get_indexes n virtual in
      Ok (lerp (nth previous arr 0) (nth next arr 0) (get_gamma virtual))
  end.

(** *** Classification *)

(** [np.zeros(data.shape, dtype=np.uint8)] *)
Definition zeros (data : list (list Q)) : list (list Z) :=
  map (map (fun _ => 0%Z)) data.

(** [out[mask] = v] with the mask computed cell by cell from [data]. *)
Fixpoint asignar_fila (cond : Q -> bool) (v : Z) (fila : list Q) (out : list Z)
    : list Z :=
  match fila, out with
  | d :: fila', o :: out' =>
      (if cond d then v else o) :: asignar_fila cond v fila' out'
  | _, _ => out
  end.

Fixpoint asignar (cond : Q -> bool) (v : Z) (data : list (list Q))
    (out : list (list Z)) : list (list Z) :=
  match data, out with
  | fila :: data', o :: out' =>
      asignar_fila cond v fila o :: asignar cond v data' out'
  | _, _ => out
  end.

(** Lines 53-56: the three masked assignments, in source order. *)
Definition clasificar (data : list (list Q)) (NoData_value umbral_bajo umbral_alto : Q)
    : list (list Z) :=
  let classified_data := zeros data in
  let classified_data :=
    asignar (fun d => gtb d NoData_value && leb d umbral_bajo) 1%Z
            data classified_data in
  let classified_data :=
    asignar (fun d => gtb d umbral_bajo && leb d umbral_alto) 2%Z
            data classified_data in
  asignar (fun d => gtb d umbral_alto) 3%Z data classified_data.

(** [clasificar_raster_amenaza]: the written raster (profile of the
    source with [nodata=0]) and the returned pair of thresholds. *)
Definition clasificar_raster_amenaza (src : raster Q)
    : resultado (raster Z * (Q * Q)) :=
  let data := banda src in
  let NoData_value := nodata src in
  let reales := valores_reales data NoData_value in
  umbral_bajo <- np_quantile reales (33 # 100) ;;
  umbral_alto <- np_quantile reales (66 # 100) ;;
  let classified_data := clasificar data NoData_value umbral_bajo umbral_alto in
  Ok (mk_raster classified_data 0%Z (transform src) (crs src),
      (umbral_bajo, umbral_alto)).

(** What the three assignments leave in one cell: a later assignment
    overwrites an earlier one. *)
Definition clase (NoData_value umbral_bajo umbral_alto d : Q) : Z :=
  if gtb d umbral_alto then 3%Z
  else if gtb d umbral_bajo && leb d umbral_alto then 2%Z
  else if gtb d NoData_value && leb d umbral_bajo then 1%Z
  else 0%Z.

(** Class counts over a classified band. *)
Definition contar (c : Z) (out : list (list Z)) : nat :=
  length (filter (Z.eqb c) (concat out)).

Definition contar_si {A} (p : A -> bool) (data : list (list A)) : nat :=
  length (filter p (concat data)).

(** Cell lookup [band[row][col]]. *)
Definition celda {A} (g : list (list A)) (row col : nat) : option A :=
  match nth_error g row with
  | Some fila => nth_error fila col
  | None => None
  end.

(** *** Reprojection *)

Section Reproyeccion.

(** What [calculate_default_transform] returns for the source: the
    destination geotransform, width and height. *)
Variable dst_transform : afin.
Variables dst_width dst_height : nat.

(** Nearest-neighbour resampling ([Resampling.nearest]): the source
    pixel (row, col) whose centre is nearest to the centre of the
    destination pixel (row, col) once carried to the source CRS.  It is
    fixed by the two geotransforms and the two CRS. *)
Variable origen : nat -> nat -> Z * Z.

(** One destination pixel: a copy of its source pixel, or the NoData
    fill the destination is initialised with when that pixel lies
    outside the source. *)
Definition remuestrear (src : raster Z) (row col : nat) : Z :=
  let '(r, c) := origen row col in
  if ((0 <=? r) && (0 <=? c))%Z
  then match celda (banda src) (Z.to_nat r) (Z.to_nat c) with
       | Some v => v
       | None => nodata src
       end
  else nodata src.

(** [reproyectar_raster_wgs84]: [kwargs = src.meta.copy()] updated with
    the destination CRS, transform, width and height. *)
Definition reproyectar_raster_wgs84 (src : raster Z) : raster Z :=
  let dst_crs := "EPSG:4326"%string in
  mk_raster
    (map (fun row => map (fun col => remuestrear src row col) (seq 0 dst_width))
         (seq 0 dst_height))
    (nodata src) dst_transform dst_crs.

End Reproyeccion.

(** *** Point sampling *)

(** [~transform * (x, y)]: fractional (col, row) of a point, in exact
    arithmetic; rasterio computes it in binary64, so within rounding of
    a cell edge its index can differ by one.  The properties below use
    only that a sample is a cell of the band or the NoData value. *)
Definition inversa (t : afin) (x y : Q) : Q * Q :=
  let det := af_a t * af_e t - af_b t * af_d t in
  ((af_e t * (x - af_c t) - af_b t * (y - af_f t)) / det,
   (af_a t * (y - af_f t) - af_d t * (x - af_c t)) / det).

(** rasterio's [rowcol] with [op=math.floor]. *)
Definition rowcol (t : afin) (x y : Q) : Z * Z :=
  let '(colf, rowf) := inversa t x y in (Qfloor rowf, Qfloor colf).

(** One step of [src.sample(coords)] followed by [val[0]]: the NoData
    value when the pixel index is off the grid, the pixel otherwise. *)
Definition sample (src : raster Z) (xy : Q * Q) : Z :=
  let '(row_off, col_off) := rowcol (transform src) (fst xy) (snd xy) in
  if ((row_off <? 0) || (col_off <? 0)
      || (Z.of_nat (height src) <=? row_off)
      || (Z.of_nat (width src) <=? col_off))%Z
  then nodata src
  else match celda (banda src) (Z.to_nat row_off) (Z.to_nat col_off) with
       | Some v => v
       | None => nodata src
       end.

(** [mapa_amenaza]; a key that is absent maps to NaN ([None]). *)
Definition mapa_amenaza (valor : Z) : option string :=
  match valor with
  | 1%Z => Some "Baja"%string
  | 2%Z => Some "Media"%string
  | 3%Z => Some "Alta"%string
  | 0%Z => Some "Sin Datos"%string
  | _ => None
  end.

Record torre : Type := mk_torre {
  ID_Torre : string;
  Latitud  : Q;
  Longitud : Q
}.

(** [extraer_valores_torres]: for each tower the columns
    [Amenaza_Valor] and [Amenaza_Nivel]. *)
Definition extraer_valores_torres (torres_df : list torre) (src : raster Z)
    : list (torre * Z * option string) :=
  let coords := map (fun t => (Longitud t, Latitud t)) torres_df in
  let valores_raster := map (sample src) coords in
  map (fun tv => (fst tv, snd tv, mapa_amenaza (snd tv)))
      (combine torres_df valores_raster).

End Raster.

(** ** The offline pipeline  (procesar_raster.py) *)

Module Pipeline.
Import Raster.

Section Geometria.

(** The destination geometry and nearest-pixel map of the reprojection
    step, as in [Raster.reproyectar_raster_wgs84]. *)
Variable dst_transform : afin.
Variables dst_width dst_height : nat.
Variable origen : nat -> nat -> Z * Z.

(** [pipeline_completo]: classify, reproject, sample the towers; an
    exception of a step is printed and raised again, and the later steps
    do not run.  The value is the tower table that step 3 writes. *)
Definition pipeline_completo (src : raster Q) (torres_df : list torre)
    : resultado (list (torre * Z * option string)) :=
  r <- clasificar_raster_amenaza src ;;
  let clasificado := fst r in
  let wgs84 :=
    reproyectar_raster_wgs84 dst_transform dst_width dst_height origen
                             clasificado in
  Ok (extraer_valores_torres torres_df wgs84).

End Geometria.

End Pipeline.

(** ** Fleet summary, filters and chart codes  (app.py) *)

Module Flota.
Import Alert Rolling.

(** pandas' [Series.sum()]: NaN entries are skipped, the empty sum is 0. *)
Definition aporte (x : option Q) : Q :=
  match x with
  | Some v => v
  | None => 0
  end.

Definition suma_serie (s : serie) : Q :=
  fold_right (fun x acc => aporte x + acc) 0 s.

(** Number of non-NaN samples. *)
Definition es_valido (x : option Q) : bool :=
  match x with
  | Some _ => true
  | None => false
  end.

Definition validos (s : serie) : nat := length (filter es_valido s).

(** Samples [lo .. hi-1] of a column that may hold NaN, and the window
    that ends at index [i]. *)
Definition tramo_serie (lo hi : nat) (s : serie) : serie :=
  firstn (hi - lo) (skipn lo s).

Definition ventana_serie (window : nat) (s : serie) (i : nat) : serie :=
  tramo_serie (S i - window) (S i) s.

(** [df.tail(n)] *)
Definition tail (n : nat) (s : serie) : serie := skipn (length s - n) s.

(** Lines 186-191: the two totals of one tower; [None] is the failed
    request, for which [obtener_lluvia_torre] returns [None]. *)
Definition resumen_lluvia (df_lluvia : option serie) : Q * Q :=
  match df_lluvia with
  | Some precipitation =>
      (suma_serie precipitation, suma_serie (tail 24 precipitation))
  | None => (0, 0)
  end.

(** A row of [torres_df] before and after the alert columns are added. *)
Record torre_base : Type := mk_torre_base {
  tb_ID_Torre : string;
  tb_Amenaza_SGC : string;
  tb_Clasificacion_Riesgo : string;
  tb_lluvia : option serie
}.

Record torre_alerta : Type := mk_torre_alerta {
  ID_Torre : string;
  Amenaza_SGC : string;
  Clasificacion_Riesgo : string;
  Lluvia_72h : Q;
  Lluvia_24h : Q;
  Nivel_Alerta : nivel_alerta;
  Prioridad : Z
}.

(** Lines 186-191 and 207-213 for one tower: its totals, then
    [calcular_nivel_alerta] on them. *)
Definition evaluar_torre (umbrales_df : umbrales) (t : torre_base) : torre_alerta :=
  let '(lluvia_72h, lluvia_24h) := resumen_lluvia (tb_lluvia t) in
  let '(nivel, prioridad) :=
    calcular_nivel_alerta (tb_Amenaza_SGC t) lluvia_72h umbrales_df in
  mk_torre_alerta (tb_ID_Torre t) (tb_Amenaza_SGC t) (tb_Clasificacion_Riesgo t)
                  lluvia_72h lluvia_24h nivel prioridad.

(** Lines 193-197: one row of [datos_lluvia] per tower row, carrying
    the tower's identifier and its two totals. *)
Definition datos_lluvia (torres_df : list torre_base) : list (string * (Q * Q)) :=
  map (fun t => (tb_ID_Torre t, resumen_lluvia (tb_lluvia t))) torres_df.

(** Line 204: [torres_df.merge(df_lluvia, on='ID_Torre')], an inner
    join: every tower row is paired with every rainfall row of the same
    identifier, in the order of the tower rows. *)
Definition merge_ID_Torre (torres_df : list torre_base)
    (df_lluvia : list (string * (Q * Q))) : list (torre_base * (Q * Q)) :=
  flat_map (fun t =>
              map (fun d => (t, snd d))
                  (filter (fun d => String.eqb (fst d) (tb_ID_Torre t)) df_lluvia))
           torres_df.

(** Lines 207-213 on one merged row. *)
Definition alerta_fila (umbrales_df : umbrales) (fila : torre_base * (Q * Q))
    : torre_alerta :=
  let '(t, (lluvia_72h, lluvia_24h)) := fila in
  let '(nivel, prioridad) :=
    calcular_nivel_alerta (tb_Amenaza_SGC t) lluvia_72h umbrales_df in
  mk_torre_alerta (tb_ID_Torre t) (tb_Amenaza_SGC t) (tb_Clasificacion_Riesgo t)
                  lluvia_72h lluvia_24h nivel prioridad.

(** Lines 179-213: the fleet table with its alert columns (before the
    sort by priority). *)
Definition evaluar_flota (umbrales_df : umbrales) (torres_df : list torre_base)
    : list torre_alerta :=
  map (alerta_fila umbrales_df)
      (merge_ID_Torre torres_df (datos_lluvia torres_df)).

(** Lines 226-229: [(torres_df['Nivel_Alerta'] == nivel).sum()]. *)
Definition n_nivel (nivel : nivel_alerta) (torres_df : list torre_alerta) : nat :=
  tiempo_en nivel (map Nivel_Alerta torres_df).

(** [alerta_map = {'VERDE': 0, 'AMARILLA': 1, 'ROJA': 2}] *)
Definition alerta_map (n : nivel_alerta) : Z :=
  match n with
  | VERDE => 0%Z
  | AMARILLA => 1%Z
  | ROJA => 2%Z
  end.

(** [col.isin(valores)] *)
Definition isin (x : string) (valores : list string) : bool :=
  existsb (String.eqb x) valores.

(** Lines 636-642: an empty multiselect is falsy and leaves the table
    as it is. *)
Definition filtrar_torres (filtro_amenaza filtro_riesgo : list string)
    (torres_df : list torre_alerta) : list torre_alerta :=
  let torres_filtradas := torres_df in
  let torres_filtradas :=
    match filtro_amenaza with
    | [] => torres_filtradas
    | _ :: _ => filter (fun t => isin (Amenaza_SGC t) filtro_amenaza) torres_filtradas
    end in
  match filtro_riesgo with
  | [] => torres_filtradas
  | _ :: _ =>
      filter (fun t => isin (Clasificacion_Riesgo t) filtro_riesgo) torres_filtradas
  end.

End Flota.

(** ** Simulated tower and event data  (simular_datos.py) *)

Module Simulacion.

Definition categorias_amenaza : list string :=
  ["Muy Baja"; "Baja"; "Media"; "Alta"; "Muy Alta"]%string.

(** [mapa_amenaza_num]; [Series.map] gives NaN ([None]) for another key. *)
Definition mapa_amenaza_num (amenaza : string) : option Z :=
  if String.eqb amenaza "Muy Baja" then Some 1%Z
  else if String.eqb amenaza "Baja" then Some 2%Z
  else if String.eqb amenaza "Media" then Some 3%Z
  else if String.eqb amenaza "Alta" then Some 4%Z
  else if String.eqb amenaza "Muy Alta" then Some 5%Z
  else None.

(** [pendiente_base]; indexing with another key raises KeyError ([None]). *)
Definition pendiente_base (amenaza : string) : option (Q * Q) :=
  if String.eqb amenaza "Muy Baja" then Some (0, 10)
  else if String.eqb amenaza "Baja" then Some (10, 20)
  else if String.eqb amenaza "Media" then Some (20, 30)
  else if String.eqb amenaza "Alta" then Some (30, 40)
  else if String.eqb amenaza "Muy Alta" then Some (40, 60)
  else None.

Definition ltb (a b : Q) : bool := negb (Qle_bool b a).

Definition clasificar_pendiente (p : Q) : string :=
  if ltb p 15 then "Baja"
  else if ltb p 30 then "Media"
  else "Alta".

Definition clasificar_riesgo (idx : Q) : string :=
  if ltb idx 30 then "Bajo"
  else if ltb idx 60 then "Medio"
  else "Alto".

(** Rounding to the nearest integer, ties to the even one, and
    [round(x, 2)] through it. *)
Definition redondear_par (x : Q) : Z :=
  let n := Qfloor x in
  let resto := x - inject_Z n in
  if ltb resto (1 # 2) then n
  else if ltb (1 # 2) resto then (n + 1)%Z
  else if Z.even n then n else (n + 1)%Z.

Definition round2 (x : Q) : Q := inject_Z (redondear_par (x * 100)) / 100.

(** The random draws that make one tower row: [np.random.choice] of the
    hazard, [np.random.uniform] of the slope and of the random part of
    the index, [np.random.randint] of the drainage distance, and the
    boolean choice of the event history. *)
Record sorteo : Type := mk_sorteo {
  s_amenaza : string;
  s_pendiente : Q;
  s_historial : bool;
  s_distancia : Z;
  s_azar : Q
}.

Record fila_torre : Type := mk_fila_torre {
  Amenaza_SGC : string;
  Amenaza_Valor : Z;
  Pendiente_Grados : Q;
  Pendiente_Clase : string;
  Historial_Eventos : bool;
  Distancia_Drenaje_m : Z;
  Indice_Riesgo : Q;
  Clasificacion_Riesgo : string
}.

(** The composite index of lines 110-116, before rounding. *)
Definition indice_compuesto (valor : Z) (pendiente : Q) (historial : bool)
    (distancia : Z) (azar : Q) : Q :=
  inject_Z valor * 15
  + (pendiente / 60 * 100) * (25 # 100)
  + (if historial then 1 else 0) * 20
  + (1 - inject_Z distancia / 500) * 15
  + azar.

(** One row of [generar_datos_torres_extendido]; [None] stands for the
    KeyError of a hazard name outside the two dictionaries. *)
Definition generar_fila (s : sorteo) : option fila_torre :=
  match mapa_amenaza_num (s_amenaza s), pendiente_base (s_amenaza s) with
  | Some valor, Some _ =>
      let pendiente := round2 (s_pendiente s) in
      let indice :=
        round2 (indice_compuesto valor pendiente (s_historial s)
                                 (s_distancia s) (s_azar s)) in
      Some (mk_fila_torre (s_amenaza s) valor pendiente
                          (clasificar_pendiente pendiente)
                          (s_historial s) (s_distancia s)
                          indice (clasificar_riesgo indice))
  | _, _ => None
  end.

(** What numpy guarantees of the draws: the hazard is one of the
    categories, [uniform(a, b)] lies in [a, b), [randint(a, b)] in
    [a, b). *)
Definition sorteo_valido (s : sorteo) : Prop :=
  In (s_amenaza s) categorias_amenaza /\
  (forall min_p max_p, pendiente_base (s_amenaza s) = Some (min_p, max_p) ->
     min_p <= s_pendiente s /\ s_pendiente s < max_p) /\
  (10 <= s_distancia s < 500)%Z /\
  0 <= s_azar s /\ s_azar s < 25.

(** The five hazard names with the numeric value of [mapa_amenaza_num]
    and the slope range of [pendiente_base]. *)
Definition caso_amenaza (a : string) (valor min_p max_p : Z) : Prop :=
  (a = "Muy Baja"%string /\ valor = 1 /\ min_p = 0 /\ max_p = 10)%Z \/
  (a = "Baja"%string /\ valor = 2 /\ min_p = 10 /\ max_p = 20)%Z \/
  (a = "Media"%string /\ valor = 3 /\ min_p = 20 /\ max_p = 30)%Z \/
  (a = "Alta"%string /\ valor = 4 /\ min_p = 30 /\ max_p = 40)%Z \/
  (a = "Muy Alta"%string /\ valor = 5 /\ min_p = 40 /\ max_p = 60)%Z.

(** Event rows of [generar_historial_eventos]: the drawn columns that
    line 162 touches. *)
Record evento : Type := mk_evento {
  Evento_ID : string;
  Afecto_Infraestructura : bool;
  Costo_Reparacion_USD : Z
}.

(** [df_eventos.loc[~df_eventos['Afecto_Infraestructura'],
    'Costo_Reparacion_USD'] = 0] *)
Definition anular_costos (df_eventos : list evento) : list evento :=
  map (fun e =>
         if negb (Afecto_Infraestructura e)
         then mk_evento (Evento_ID e) (Afecto_Infraestructura e) 0%Z
         else e)
      df_eventos.

End Simulacion.

(** * Properties *)

Import Alert Rolling Raster.

(** ** Alert evaluation *)

Section AlertFacts.

Lemma geb_true (a b : Q) : geb a b = true <-> b <= a.
Proof. unfold geb. apply Qle_bool_iff. Qed.

Lemma geb_false (a b : Q) : geb a b = false <-> a < b.
Proof.
  unfold geb. split; intro H.
  - apply Qnot_le_lt. intro L. apply Qle_bool_iff in L. congruence.
  - destruct (Qle_bool b a) eqn:E; [|reflexivity].
    apply Qle_bool_iff in E. exfalso. exact (Qlt_not_le _ _ H E).
Qed.

Lemma geb_compat (a b a' b' : Q) : a == a' -> b == b' -> geb a b = geb a' b'.
Proof.
  intros Ha Hb. destruct (geb a' b') eqn:E.
  - apply geb_true. apply geb_true in E. rewrite Ha, Hb. exact E.
  - apply geb_false. apply geb_false in E. rewrite Ha, Hb. exact E.
Qed.

Lemma temporal_decision (m : umbrales) (a : string) (v : Q) (f : fila_umbral)
    (rest : umbrales) :
  seleccionar m a = f :: rest ->
  calcular_alerta_temporal m v a = decision (Umbral_Amarillo_mm f) (Umbral_Rojo_mm f) v.
Proof. intro H. unfold calcular_alerta_temporal, decision. rewrite H. reflexivity. Qed.

Lemma nivel_fst_temporal (m : umbrales) (a : string) (v : Q) :
  fst (calcular_nivel_alerta a v m) = calcular_alerta_temporal m v a.
Proof.
  unfold calcular_nivel_alerta, calcular_alerta_temporal.
  destruct (seleccionar m a) as [|f rest]; [reflexivity|].
  cbv zeta. destruct (geb v (Umbral_Rojo_mm f)); [reflexivity|].
  destruct (geb v (Umbral_Amarillo_mm f)); reflexivity.
Qed.

Lemma nivel_prioridad (m : umbrales) (a : string) (v : Q) (f : fila_umbral)
    (rest : umbrales) :
  seleccionar m a = f :: rest ->
  calcular_nivel_alerta a v m =
    match decision (Umbral_Amarillo_mm f) (Umbral_Rojo_mm f) v with
    | ROJA => (ROJA, 3%Z)
    | AMARILLA => (AMARILLA, 2%Z)
    | VERDE => (VERDE, 1%Z)
    end.
Proof.
  intro H. unfold calcular_nivel_alerta, decision. rewrite H. cbv zeta.
  destruct (geb v (Umbral_Rojo_mm f)); [reflexivity|].
  destruct (geb v (Umbral_Amarillo_mm f)); reflexivity.
Qed.

Lemma decision_roja (y r v : Q) : r <= v -> decision y r v = ROJA.
Proof. intro H. unfold decision. apply geb_true in H. rewrite H. reflexivity. Qed.

Lemma decision_amarilla (y r v : Q) : v < r -> y <= v -> decision y r v = AMARILLA.
Proof.
  intros H1 H2. unfold decision.
  apply geb_false in H1. apply geb_true in H2. rewrite H1, H2. reflexivity.
Qed.

Lemma decision_verde (y r v : Q) : v < r -> v < y -> decision y r v = VERDE.
Proof.
  intros H1 H2. unfold decision.
  apply geb_false in H1. apply geb_false in H2. rewrite H1, H2. reflexivity.
Qed.

Lemma seleccionar_ausente (m : umbrales) (a : string) :
  ~ In a (map Amenaza_Nivel m) -> seleccionar m a = [].
Proof.
  unfold seleccionar. induction m as [|f m IH]; intro H; [reflexivity|].
  simpl in *. destruct (String.eqb (Amenaza_Nivel f) a) eqn:E.
  - apply String.eqb_eq in E. exfalso. apply H. left. exact E.
  - apply IH. intro K. apply H. right. exact K.
Qed.

(** C1: for a hazard level whose selected row has boundaries
    (amarillo, rojo), both evaluators test the red boundary first, then
    the yellow one: ROJA when [rojo <= v], otherwise AMARILLA when
    [amarillo <= v], otherwise VERDE; so a value at or above both
    boundaries is ROJA whatever the row holds, also when
    [amarillo > rojo].  On the default 'Media' row (150, 200): 200 is
    ROJA, 199.999 is AMARILLA and 149.999 is VERDE. *)
Theorem C1_descending_threshold_order
    (m : umbrales) (a : string) (v : Q) (f : fila_umbral) (rest : umbrales) :
  seleccionar m a = f :: rest ->
  (Umbral_Rojo_mm f <= v ->
     calcular_alerta_temporal m v a = ROJA /\
     calcular_nivel_alerta a v m = (ROJA, 3%Z)) /\
  (v < Umbral_Rojo_mm f -> Umbral_Amarillo_mm f <= v ->
     calcular_alerta_temporal m v a = AMARILLA /\
     calcular_nivel_alerta a v m = (AMARILLA, 2%Z)) /\
  (v < Umbral_Rojo_mm f -> v < Umbral_Amarillo_mm f ->
     calcular_alerta_temporal m v a = VERDE /\
     calcular_nivel_alerta a v m = (VERDE, 1%Z)) /\
  (Umbral_Rojo_mm f <= v -> Umbral_Amarillo_mm f <= v ->
     calcular_alerta_temporal m v a <> AMARILLA /\
     fst (calcular_nivel_alerta a v m) <> AMARILLA) /\
  (seleccionar umbrales_por_defecto "Media" = [mk_fila "Media" 120 150 200] /\
   calcular_alerta_temporal umbrales_por_defecto 200 "Media" = ROJA /\
   calcular_nivel_alerta "Media" 200 umbrales_por_defecto = (ROJA, 3%Z) /\
   calcular_alerta_temporal umbrales_por_defecto (199999 # 1000) "Media" = AMARILLA /\
   calcular_nivel_alerta "Media" (199999 # 1000) umbrales_por_defecto = (AMARILLA, 2%Z) /\
   calcular_alerta_temporal umbrales_por_defecto (149999 # 1000) "Media" = VERDE /\
   calcular_nivel_alerta "Media" (149999 # 1000) umbrales_por_defecto = (VERDE, 1%Z)).
Proof.
  intro Hsel.
  pose proof (temporal_decision m a v f rest Hsel) as Ht.
  pose proof (nivel_prioridad m a v f rest Hsel) as Hn.
  split; [intro; split|split; [intros; split|split; [intros; split|split; [intros; split|]]]].
  - rewrite Ht. now apply decision_roja.
  - rewrite Hn, decision_roja by assumption. reflexivity.
  - rewrite Ht. now apply decision_amarilla.
  - rewrite Hn, decision_amarilla by assumption. reflexivity.
  - rewrite Ht. now apply decision_verde.
  - rewrite Hn, decision_verde by assumption. reflexivity.
  - rewrite Ht, decision_roja by assumption. discriminate.
  - rewrite Hn, decision_roja by assumption. discriminate.
  - repeat split.
Qed.

Lemma C1_witness :
  seleccionar [mk_fila "Baja" 0 300 100] "Baja" = [mk_fila "Baja" 0 300 100] /\
  calcular_alerta_temporal [mk_fila "Baja" 0 300 100] 400 "Baja" = ROJA.
Proof.
  split; [reflexivity|].
  destruct (C1_descending_threshold_order
              [mk_fila "Baja" 0 300 100] "Baja" 400 (mk_fila "Baja" 0 300 100) []
              eq_refl) as [H _].
  apply H. vm_compute. discriminate.
Defined.

(** C7: a hazard level that names no row of the matrix is evaluated to
    VERDE for every accumulated value, by both evaluators (priority 0 in
    the scalar one); the evaluation is a total function, so nothing is
    raised and the tower keeps an alert state. *)
Theorem C7_unknown_level_is_green (m : umbrales) (a : string) (v : Q) :
  ~ In a (map Amenaza_Nivel m) ->
  calcular_nivel_alerta a v m = (VERDE, 0%Z) /\
  calcular_alerta_temporal m v a = VERDE.
Proof.
  intro H. apply seleccionar_ausente in H.
  unfold calcular_nivel_alerta, calcular_alerta_temporal. rewrite H. split; reflexivity.
Qed.

Lemma C7_witness :
  calcular_nivel_alerta "Sin Datos" 500 umbrales_por_defecto = (VERDE, 0%Z) /\
  calcular_alerta_temporal umbrales_por_defecto 500 "Sin Datos" = VERDE.
Proof.
  apply (C7_unknown_level_is_green umbrales_por_defecto "Sin Datos" 500).
  simpl. intros [H|[H|[H|[H|[H|[]]]]]]; discriminate H.
Defined.

(** C10: if two matrices select, for a hazard level, rows that agree
    pairwise on Umbral_Amarillo_mm and Umbral_Rojo_mm, both evaluators
    return the same result on the two matrices for every accumulated
    value: Umbral_Verde_mm is not read. *)
Theorem C10_green_boundary_not_read (m1 m2 : umbrales) (a : string) (v : Q) :
  Forall2 (fun f g => Umbral_Amarillo_mm f == Umbral_Amarillo_mm g /\
                      Umbral_Rojo_mm f == Umbral_Rojo_mm g)
          (seleccionar m1 a) (seleccionar m2 a) ->
  calcular_nivel_alerta a v m1 = calcular_nivel_alerta a v m2 /\
  calcular_alerta_temporal m1 v a = calcular_alerta_temporal m2 v a.
Proof.
  intro H. unfold calcular_nivel_alerta, calcular_alerta_temporal.
  destruct H as [|f g l1 l2 [Hy Hr] _]; [split; reflexivity|].
  cbv zeta.
  rewrite (geb_compat v (Umbral_Rojo_mm f) v (Umbral_Rojo_mm g) (Qeq_refl v) Hr).
  rewrite (geb_compat v (Umbral_Amarillo_mm f) v (Umbral_Amarillo_mm g) (Qeq_refl v) Hy).
  split; reflexivity.
Qed.

Lemma C10_witness :
  calcular_nivel_alerta "Alta" 110 umbrales_por_defecto =
    calcular_nivel_alerta "Alta" 110 [mk_fila "Alta" 5000 100 120] /\
  calcular_alerta_temporal umbrales_por_defecto 110 "Alta" =
    calcular_alerta_temporal [mk_fila "Alta" 5000 100 120] 110 "Alta".
Proof.
  apply (C10_green_boundary_not_read
           umbrales_por_defecto [mk_fila "Alta" 5000 100 120] "Alta" 110).
  simpl. constructor; [split; reflexivity | constructor].
Defined.

End AlertFacts.

(** ** Rolling accumulation *)

Section RollingFacts.

Lemma ventana_tramo (window : nat) (xs : list Q) (i : nat) :
  ventana window xs i = tramo (S i - window) (S i) xs.
Proof. reflexivity. Qed.

Lemma skipn_nth_cons (xs : list Q) (i : nat) :
  (i < length xs)%nat -> skipn i xs = nth i xs 0 :: skipn (S i) xs.
Proof.
  revert i. induction xs as [|x xs IH]; intros i H; simpl in H; [lia|].
  destruct i as [|i]; [reflexivity|].
  simpl. apply IH. lia.
Qed.

Lemma suma_app (l1 l2 : list Q) : suma (l1 ++ l2) == suma l1 + suma l2.
Proof.
  induction l1 as [|x l1 IH]; simpl.
  - ring.
  - rewrite IH. ring.
Qed.

Lemma tramo_quitar (lo hi : nat) (xs : list Q) :
  (lo < hi)%nat -> (lo < length xs)%nat ->
  suma (tramo lo hi xs) == nth lo xs 0 + suma (tramo (S lo) hi xs).
Proof.
  intros H1 H2. unfold tramo.
  rewrite (skipn_nth_cons xs lo H2).
  replace (hi - lo)%nat with (S (hi - S lo)) by lia.
  simpl. reflexivity.
Qed.

Lemma firstn_snoc (l : list Q) (k : nat) :
  (k < length l)%nat -> firstn (S k) l = firstn k l ++ [nth k l 0].
Proof.
  revert k. induction l as [|x l IH]; intros k H; simpl in H; [lia|].
  destruct k as [|k]; [reflexivity|].
  change (firstn (S (S k)) (x :: l)) with (x :: firstn (S k) l).
  rewrite IH by lia. reflexivity.
Qed.

Lemma nth_skipn_Q (xs : list Q) (lo k : nat) :
  nth k (skipn lo xs) 0 = nth (lo + k) xs 0.
Proof.
  revert xs. induction lo as [|lo IH]; intros xs; [reflexivity|].
  destruct xs as [|x xs]; simpl.
  - destruct k; reflexivity.
  - apply IH.
Qed.

Lemma tramo_anadir (lo hi : nat) (xs : list Q) :
  (lo <= hi)%nat -> (hi < length xs)%nat ->
  suma (tramo lo (S hi) xs) == suma (tramo lo hi xs) + nth hi xs 0.
Proof.
  intros H1 H2. unfold tramo.
  replace (S hi - lo)%nat with (S (hi - lo)) by lia.
  rewrite firstn_snoc by (rewrite length_skipn; lia).
  rewrite suma_app, nth_skipn_Q.
  replace (lo + (hi - lo))%nat with hi by lia.
  simpl. ring.
Qed.

Lemma nth_error_map_Some (xs : list Q) (k : nat) :
  (k < length xs)%nat -> nth_error (map Some xs) k = Some (Some (nth k xs 0)).
Proof.
  revert k. induction xs as [|x xs IH]; intros k H; simpl in H; [lia|].
  destruct k as [|k]; [reflexivity|]. simpl. apply IH. lia.
Qed.

Lemma roll_loop_length (values : serie) (window minp : nat) (pend : serie)
    (i : nat) (st : estado) :
  length (roll_loop values window minp pend i st) = length pend.
Proof.
  revert i st. induction pend as [|v pend IH]; intros i st; [reflexivity|].
  simpl. f_equal. apply IH.
Qed.

(** The forward pass keeps, before index [i], the sum and the count of
    the samples [i - window .. i - 1]; every entry it emits is the sum of
    the window that ends at its index. *)
Lemma roll_loop_spec (xs : list Q) (window : nat) :
  (1 <= window)%nat ->
  forall (pend : list Q) (i : nat) (st : estado),
    pend = skipn i xs ->
    fst st == suma (tramo (i - window) i xs) ->
    snd st = (i - (i - window))%nat ->
    forall k, (k < length pend)%nat ->
    exists s,
      nth_error (roll_loop (map Some xs) window 1 (map Some pend) i st) k
        = Some (Some s) /\
      s == suma (ventana window xs (i + k)).
Proof.
  intros Hw pend. induction pend as [|x pend IH]; intros i st Hp Hs Hn k Hk.
  - simpl in Hk. lia.
  - assert (Hi : (i < length xs)%nat).
    { destruct (Nat.lt_ge_cases i (length xs)) as [L|L]; [exact L|].
      rewrite skipn_all2 in Hp by exact L. discriminate. }
    rewrite (skipn_nth_cons xs i Hi) in Hp. injection Hp as Hx Hrest.
    simpl map. cbn [roll_loop].
    set (st1 := if (window <=? i)%nat
                then match nth_error (map Some xs) (i - window) with
                     | Some old => remove_sum old st
                     | None => st
                     end
                else st).
    assert (H1 : fst st1 == suma (tramo (S i - window) i xs) /\
                 snd st1 = (i - (S i - window))%nat).
    { unfold st1. destruct (window <=? i)%nat eqn:E.
      - apply Nat.leb_le in E.
        rewrite nth_error_map_Some by lia. unfold remove_sum. cbn [fst snd]. split.
        + rewrite Hs. rewrite (tramo_quitar (i - window) i xs) by lia.
          replace (S (i - window)) with (S i - window)%nat by lia.
          ring.
        + rewrite Hn. lia.
      - apply Nat.leb_gt in E. split.
        + rewrite Hs. replace (S i - window)%nat with (i - window)%nat by lia.
          reflexivity.
        + rewrite Hn. lia. }
    destruct H1 as [H1s H1n].
    set (st2 := add_sum (Some x) st1).
    assert (H2s : fst st2 == suma (tramo (S i - window) (S i) xs)).
    { unfold st2, add_sum. cbn [fst snd]. rewrite H1s.
      rewrite (tramo_anadir (S i - window) i xs) by lia.
      rewrite Hx. reflexivity. }
    assert (H2n : snd st2 = (S i - (S i - window))%nat).
    { unfold st2, add_sum. cbn [fst snd]. rewrite H1n. lia. }
    destruct k as [|k].
    + exists (fst st2). split.
      * cbn [nth_error]. unfold calc_sum. rewrite H2n.
        destruct (1 <=? S i - (S i - window))%nat eqn:E; [reflexivity|].
        apply Nat.leb_gt in E. lia.
      * rewrite Nat.add_0_r, ventana_tramo. exact H2s.
    + cbn [nth_error].
      replace (i + S k)%nat with (S i + k)%nat by lia.
      apply (IH (S i) st2);
        [exact Hrest | exact H2s | exact H2n | simpl in Hk; lia].
Qed.

Lemma roll_loop_f64_length (values : list RollingF64.f64) (window minp : nat)
    (pend : list RollingF64.f64) (i : nat) (st : RollingF64.estado) :
  length (RollingF64.roll_loop values window minp pend i st) = length pend.
Proof.
  revert i st. induction pend as [|v pend IH]; intros i st; [reflexivity|].
  simpl. f_equal. apply IH.
Qed.

(** C4 as the code has it: the accumulated series has the length of the
    input, whatever the samples; for a series of whole numbers of
    millimetres (at most 2^46 each, so that every float64 running sum is
    exact) entry [i] is the sum of the samples [max(0, i-71) .. i], the
    [min(i+1, 72)] latest ones, nothing padded and every entry defined;
    on 100 samples of 1.0 mm the kernel gives [index+1] for the entries
    0..70 and 72.0 for the entries 71..99. *)
Theorem C4_rolling_sum_whole_samples :
  (forall xs : list RollingF64.f64,
     length (RollingF64.precip_acum_72h xs) = length xs) /\
  (forall xs : list Q,
     (forall x, In x xs ->
        exists z : Z, x == inject_Z z /\ (Z.abs z <= 2 ^ 46)%Z) ->
     length (precip_acum_72h (map Some xs)) = length xs /\
     forall i, (i < length xs)%nat ->
       exists s,
         nth_error (precip_acum_72h (map Some xs)) i = Some (Some s) /\
         s == suma (ventana 72 xs i) /\
         ventana 72 xs i = firstn (Nat.min (S i) 72) (skipn (i - 71) xs)) /\
  RollingF64.precip_acum_72h (repeat (RollingF64.f64_of_Z 1) 100) =
    map (fun i => RollingF64.f64_of_Z (Z.of_nat i + 1)) (seq 0 71)
    ++ repeat (RollingF64.f64_of_Z 72) 29.
Proof.
  split; [|split].
  - intro xs. unfold RollingF64.precip_acum_72h, RollingF64.rolling_sum.
    apply roll_loop_f64_length.
  - intros xs _. split.
    + unfold precip_acum_72h, rolling_sum.
      rewrite roll_loop_length, length_map. reflexivity.
    + intros i Hi.
      destruct (roll_loop_spec xs 72 ltac:(lia) xs 0%nat (0, 0%nat)
                  eq_refl ltac:(reflexivity) eq_refl i Hi) as [s [E1 E2]].
      exists s. split; [exact E1|]. split; [exact E2|].
      unfold ventana, tramo.
      replace (S i - 72)%nat with (i - 71)%nat by lia. f_equal. lia.
  - vm_compute. reflexivity.
Qed.

Lemma C4_witness :
  exists s, nth_error (precip_acum_72h (map Some [1; 2; 3])) 1 = Some (Some s) /\
            s == 3.
Proof.
  destruct C4_rolling_sum_whole_samples as [_ [H _]].
  destruct (H [1; 2; 3]) as [_ K].
  - intros x [<-|[<-|[<-|[]]]];
      [exists 1%Z | exists 2%Z | exists 3%Z]; split; try reflexivity;
      vm_compute; discriminate.
  - destruct (K 1%nat) as [s [E1 [E2 _]]]; [simpl; lia|].
    exists s. split; [exact E1|].
    apply Qeq_trans with (suma (ventana 72 [1; 2; 3] 1)); [exact E2|].
    vm_compute. reflexivity.
Defined.

(** The claim as stated fails on decimal samples: on 100 samples of
    2.4 mm followed by 80 dry hours the entry at index 121 is
    119.99999999999999 (8444249301319679 / 2^46), while the samples of
    its window, 50 times the double 2.4 and 22 zeros, add up to
    119.999999999999995..., whose nearest double is 120.0. *)
Lemma C4_counterexample :
  let xs := repeat (RollingF64.decimal 24 10) 100 ++ repeat PrimFloat.zero 80 in
  exists e,
    nth_error (RollingF64.precip_acum_72h xs) 121 = Some e /\
    RollingF64.valor e == 8444249301319679 # 70368744177664 /\
    suma (ventana 72 (map RollingF64.valor xs) 121)
      == (50 * 5404319552844595) # 2251799813685248 /\
    ~ RollingF64.valor e == suma (ventana 72 (map RollingF64.valor xs) 121) /\
    PrimFloat.eqb e (RollingF64.f64_of_Z 120) = false.
Proof.
  intro xs.
  destruct (nth_error (RollingF64.precip_acum_72h xs) 121) as [e|] eqn:E;
    [|vm_compute in E; discriminate].
  exists e. split; [reflexivity|].
  vm_compute in E. injection E as <-.
  split; [vm_compute; reflexivity|].
  split; [vm_compute; reflexivity|].
  split; [vm_compute; discriminate|].
  vm_compute. reflexivity.
Qed.

(** On the end-to-end scenario (whole samples) the binary64 kernel and
    the exact forward pass give the same entries. *)
Lemma kernel_exacto_en_escenario :
  map (fun x => Some (Qred (RollingF64.valor x)))
      (RollingF64.precip_acum_72h
         (repeat (RollingF64.f64_of_Z 2) 72 ++ repeat PrimFloat.zero 24))
  = map (option_map Qred) (precip_acum_72h (map Some (lluvia_escenario 24))).
Proof. vm_compute. reflexivity. Qed.

Lemma skipn_repeat_Q (a : Q) (n k : nat) :
  skipn k (repeat a n) = repeat a (n - k).
Proof.
  revert k. induction n as [|n IH]; intro k.
  - destruct k; reflexivity.
  - destruct k as [|k]; [reflexivity|]. simpl. apply IH.
Qed.

Lemma suma_firstn_ceros (k q : nat) : suma (firstn k (repeat 0 q)) == 0.
Proof.
  revert k. induction q as [|q IH]; intro k.
  - destruct k; reflexivity.
  - destruct k as [|k]; [reflexivity|].
    simpl. rewrite IH. ring.
Qed.

Lemma suma_firstn_repeat (a : Q) (p q k : nat) :
  suma (firstn k (repeat a p ++ repeat 0 q))
    == a * inject_Z (Z.of_nat (Nat.min k p)).
Proof.
  revert k. induction p as [|p IH]; intro k.
  - rewrite Nat.min_0_r. simpl app. rewrite suma_firstn_ceros.
    change (inject_Z (Z.of_nat 0)) with 0. ring.
  - destruct k as [|k].
    + simpl. ring.
    + change (suma (firstn (S k) (repeat a (S p) ++ repeat 0 q)))
        with (a + suma (firstn k (repeat a p ++ repeat 0 q))).
      rewrite IH.
      replace (Nat.min (S k) (S p)) with (S (Nat.min k p)) by lia.
      rewrite Nat2Z.inj_succ. unfold Z.succ. rewrite inject_Z_plus.
      change (inject_Z 1) with 1. ring.
Qed.

Lemma suma_ventana_escenario (m i : nat) :
  suma (ventana 72 (lluvia_escenario m) i) == acumulado_escenario i.
Proof.
  unfold ventana, tramo, lluvia_escenario, acumulado_escenario, horas_con_lluvia.
  rewrite skipn_app, !skipn_repeat_Q, repeat_length.
  rewrite suma_firstn_repeat.
  destruct (i <? 72)%nat eqn:E;
    [apply Nat.ltb_lt in E | apply Nat.ltb_ge in E];
    match goal with
    | |- _ * inject_Z (Z.of_nat ?a) == _ * inject_Z (Z.of_nat ?b) =>
        replace a with b by lia
    end; reflexivity.
Qed.

Lemma decision_alta (c : nat) :
  decision 100 120 (2 * inject_Z (Z.of_nat c)) =
    if (c <? 50)%nat then VERDE else if (c <? 60)%nat then AMARILLA else ROJA.
Proof.
  destruct (c <? 50)%nat eqn:E1; [|destruct (c <? 60)%nat eqn:E2].
  - apply Nat.ltb_lt in E1.
    apply decision_verde; unfold Qlt, Qmult, inject_Z; cbn [Qnum Qden]; lia.
  - apply Nat.ltb_ge in E1. apply Nat.ltb_lt in E2.
    apply decision_amarilla; unfold Qlt, Qle, Qmult, inject_Z; cbn [Qnum Qden]; lia.
  - apply Nat.ltb_ge in E2.
    apply decision_roja; unfold Qle, Qmult, inject_Z; cbn [Qnum Qden]; lia.
Qed.

Lemma decision_compat (y r v w : Q) : v == w -> decision y r v = decision y r w.
Proof.
  intro H. unfold decision.
  rewrite (geb_compat v r w r H (Qeq_refl r)).
  rewrite (geb_compat v y w y H (Qeq_refl y)). reflexivity.
Qed.

Lemma nivel_escenario_horas (i : nat) :
  (if (horas_con_lluvia i <? 50)%nat then VERDE
   else if (horas_con_lluvia i <? 60)%nat then AMARILLA else ROJA)
  = nivel_escenario i.
Proof.
  unfold horas_con_lluvia, nivel_escenario.
  destruct (i <? 72)%nat eqn:E;
    [apply Nat.ltb_lt in E | apply Nat.ltb_ge in E];
    repeat match goal with
           | |- context [(?a <? ?b)%nat] =>
               let K := fresh "K" in
               destruct (a <? b)%nat eqn:K;
               [apply Nat.ltb_lt in K | apply Nat.ltb_ge in K]
           end; try reflexivity; lia.
Qed.

Lemma tiempos_suman (col : list nivel_alerta) :
  (tiempo_roja col + tiempo_amarilla col + tiempo_verde col = length col)%nat.
Proof.
  unfold tiempo_roja, tiempo_amarilla, tiempo_verde, tiempo_en.
  induction col as [|x col IH]; [reflexivity|].
  destruct x; simpl; lia.
Qed.

Lemma tiempo_en_app (n : nivel_alerta) (l1 l2 : list nivel_alerta) :
  tiempo_en n (l1 ++ l2) = (tiempo_en n l1 + tiempo_en n l2)%nat.
Proof. unfold tiempo_en. rewrite filter_app, length_app. reflexivity. Qed.

Lemma escenario_entrada (m i : nat) :
  (i < 72 + m)%nat ->
  exists s,
    nth_error (precip_acum_72h (map Some (lluvia_escenario m))) i = Some (Some s) /\
    s == acumulado_escenario i.
Proof.
  intro Hi.
  assert (Hl : length (lluvia_escenario m) = (72 + m)%nat).
  { unfold lluvia_escenario. rewrite length_app, !repeat_length. reflexivity. }
  destruct (roll_loop_spec (lluvia_escenario m) 72 ltac:(lia)
              (lluvia_escenario m) 0%nat (0, 0%nat)
              eq_refl ltac:(reflexivity) eq_refl i ltac:(lia)) as [s [E1 E2]].
  exists s. split; [exact E1|].
  rewrite E2. apply suma_ventana_escenario.
Qed.

Lemma escenario_columna (m : nat) :
  nivel_alerta_temporal umbrales_por_defecto "Alta"
    (precip_acum_72h (map Some (lluvia_escenario m)))
  = map nivel_escenario (seq 0 (72 + m)).
Proof.
  assert (Hl : length (precip_acum_72h (map Some (lluvia_escenario m)))
               = (72 + m)%nat).
  { unfold precip_acum_72h, rolling_sum, lluvia_escenario.
    rewrite roll_loop_length, length_map, length_app, !repeat_length.
    reflexivity. }
  apply nth_error_ext. intro i. unfold nivel_alerta_temporal.
  rewrite !nth_error_map.
  destruct (Nat.lt_ge_cases i (72 + m)) as [L|L].
  - destruct (escenario_entrada m i L) as [s [E1 E2]].
    rewrite E1, nth_error_seq.
    destruct (i <? 72 + m)%nat eqn:E; [|apply Nat.ltb_ge in E; lia].
    cbn [option_map alerta_de Nat.add]. f_equal.
    rewrite (temporal_decision umbrales_por_defecto "Alta" s
               (mk_fila "Alta" 80 100 120) [] eq_refl).
    cbn [Umbral_Amarillo_mm Umbral_Rojo_mm].
    rewrite (decision_compat 100 120 s (acumulado_escenario i) E2).
    unfold acumulado_escenario. rewrite decision_alta.
    apply nivel_escenario_horas.
  - rewrite (proj2 (nth_error_None _ i)) by lia.
    rewrite nth_error_seq.
    destruct (i <? 72 + m)%nat eqn:E; [apply Nat.ltb_lt in E; lia|].
    reflexivity.
Qed.

Lemma escenario_primeras_72 :
  tiempo_en VERDE (map nivel_escenario (seq 0 72)) = 49%nat /\
  tiempo_en AMARILLA (map nivel_escenario (seq 0 72)) = 10%nat /\
  tiempo_en ROJA (map nivel_escenario (seq 0 72)) = 13%nat.
Proof. vm_compute. repeat split. Qed.

Lemma acumulado_hora_72 : acumulado_escenario 71 == 144.
Proof. vm_compute. reflexivity. Qed.

(** C3 as the code has it: on the 'Alta' row of the default matrix
    (100, 120), with 2 mm/hour for 72 hours and [m] dry hours after, the
    accumulated series is [2*(i+1)] for the first 72 samples (144 mm at
    hour 72) and then falls by 2 mm per hour as wet samples leave the
    72-hour window, down to 0; the alert is VERDE for hours 1..49,
    AMARILLA from hour 50, ROJA from hour 60 to hour 84, AMARILLA for
    hours 85..94 and VERDE after; the dwell counts hold at least 49 VERDE,
    10 AMARILLA and 13 ROJA hours and add up to the length of the series. *)
Theorem C3_alta_scenario (m : nat) :
  let acum := precip_acum_72h (map Some (lluvia_escenario m)) in
  let col := nivel_alerta_temporal umbrales_por_defecto "Alta" acum in
  seleccionar umbrales_por_defecto "Alta" =
    [mk_fila "Alta" 80 100 120] /\
  length acum = (72 + m)%nat /\
  (forall i, (i < 72 + m)%nat ->
     exists s, nth_error acum i = Some (Some s) /\
               s == acumulado_escenario i /\
               nth_error col i = Some (nivel_escenario i)) /\
  acumulado_escenario 71 == 144 /\
  (nivel_escenario 48 = VERDE /\ nivel_escenario 49 = AMARILLA /\
   nivel_escenario 58 = AMARILLA /\ nivel_escenario 59 = ROJA) /\
  (49 <= tiempo_verde col)%nat /\
  (10 <= tiempo_amarilla col)%nat /\
  (13 <= tiempo_roja col)%nat /\
  (tiempo_roja col + tiempo_amarilla col + tiempo_verde col = 72 + m)%nat.
Proof.
  intros acum col.
  assert (Hcol : col = map nivel_escenario (seq 0 (72 + m)))
    by apply escenario_columna.
  assert (Hl : length acum = (72 + m)%nat).
  { unfold acum, precip_acum_72h, rolling_sum, lluvia_escenario.
    rewrite roll_loop_length, length_map, length_app, !repeat_length.
    reflexivity. }
  assert (Hent : forall i, (i < 72 + m)%nat ->
            exists s, nth_error acum i = Some (Some s) /\
                      s == acumulado_escenario i)
    by (intros i Hi; exact (escenario_entrada m i Hi)).
  clearbody col acum.
  assert (Hsplit : col = map nivel_escenario (seq 0 72)
                         ++ map nivel_escenario (seq 72 m)).
  { rewrite Hcol, seq_app, map_app. reflexivity. }
  assert (Hlen : length col = (72 + m)%nat).
  { rewrite Hcol, length_map, length_seq. reflexivity. }
  destruct escenario_primeras_72 as [Pv [Pa Pr]].
  split; [reflexivity|]. split; [exact Hl|]. split.
  { intros i Hi. destruct (Hent i Hi) as [s [E1 E2]].
    exists s. split; [exact E1|]. split; [exact E2|].
    rewrite Hcol, nth_error_map, nth_error_seq.
    destruct (i <? 72 + m)%nat eqn:E; [reflexivity|].
    apply Nat.ltb_ge in E. lia. }
  split; [exact acumulado_hora_72|]. split; [repeat split|].
  split; [|split; [|split]].
  - rewrite Hsplit. unfold tiempo_verde. rewrite tiempo_en_app, Pv. lia.
  - rewrite Hsplit. unfold tiempo_amarilla. rewrite tiempo_en_app, Pa. lia.
  - rewrite Hsplit. unfold tiempo_roja. rewrite tiempo_en_app, Pr. lia.
  - rewrite <- Hlen. apply tiempos_suman.
Qed.

Lemma C3_witness :
  exists s,
    nth_error (precip_acum_72h (map Some (lluvia_escenario 24))) 72 = Some (Some s) /\
    s == 142 /\
    nth_error (nivel_alerta_temporal umbrales_por_defecto "Alta"
                 (precip_acum_72h (map Some (lluvia_escenario 24)))) 72 = Some ROJA.
Proof.
  destruct (C3_alta_scenario 24) as [_ [_ [H _]]].
  destruct (H 72%nat) as [s [E1 [E2 E3]]]; [lia|].
  exists s. split; [exact E1|]. split; [|exact E3].
  apply Qeq_trans with (acumulado_escenario 72); [exact E2|].
  vm_compute. reflexivity.
Defined.

(** The claim as stated fails already one hour after the rain stops: with
    24 dry hours the entry at index 72 is 142, not 144, and 51 samples
    are VERDE (the first 49 and the last 2). *)
Lemma C3_counterexample :
  let acum := precip_acum_72h (map Some (lluvia_escenario 24)) in
  let col := nivel_alerta_temporal umbrales_por_defecto "Alta" acum in
  nth_error acum 72 = Some (Some 142) /\
  ~ (forall i, (72 <= i < 96)%nat ->
       exists s, nth_error acum i = Some (Some s) /\ s == 144) /\
  tiempo_verde col = 51%nat /\
  ~ (tiempo_verde col = 0%nat).
Proof.
  intros acum col.
  assert (E : nth_error acum 72 = Some (Some 142)) by (vm_compute; reflexivity).
  assert (V : tiempo_verde col = 51%nat) by (vm_compute; reflexivity).
  split; [exact E|]. split; [|split; [exact V|rewrite V; discriminate]].
  intro H. destruct (H 72%nat ltac:(lia)) as [s [Hs Hq]].
  rewrite E in Hs. injection Hs as <-. vm_compute in Hq. discriminate.
Qed.

End RollingFacts.

(** ** Raster classification *)

Section ClasificacionFacts.

Lemma gtb_true (a b : Q) : gtb a b = true <-> b < a.
Proof.
  unfold gtb. rewrite negb_true_iff. split; intro H.
  - apply Qnot_le_lt. intro L. apply Qle_bool_iff in L. congruence.
  - destruct (Qle_bool a b) eqn:E; [|reflexivity].
    apply Qle_bool_iff in E. exfalso. exact (Qlt_not_le _ _ H E).
Qed.

Lemma gtb_false (a b : Q) : gtb a b = false <-> a <= b.
Proof. unfold gtb. rewrite negb_false_iff. apply Qle_bool_iff. Qed.

Lemma leb_true (a b : Q) : Raster.leb a b = true <-> a <= b.
Proof. apply Qle_bool_iff. Qed.

Lemma neb_false (a b : Q) : neb a b = false <-> a == b.
Proof. unfold neb. rewrite negb_false_iff. apply Qeq_bool_iff. Qed.

Lemma neb_true (a b : Q) : neb a b = true <-> ~ a == b.
Proof.
  unfold neb. rewrite negb_true_iff. split; intro H.
  - intro E. apply Qeq_bool_iff in E. congruence.
  - destruct (Qeq_bool a b) eqn:E; [|reflexivity].
    apply Qeq_bool_iff in E. contradiction.
Qed.

Lemma asignar_fila_map (cond : Q -> bool) (v : Z) (g : Q -> Z) (fila : list Q) :
  asignar_fila cond v fila (map g fila)
    = map (fun d => if cond d then v else g d) fila.
Proof.
  induction fila as [|d fila IH]; [reflexivity|].
  simpl. rewrite IH. reflexivity.
Qed.

Lemma asignar_map (cond : Q -> bool) (v : Z) (g : Q -> Z) (data : list (list Q)) :
  asignar cond v data (map (map g) data)
    = map (map (fun d => if cond d then v else g d)) data.
Proof.
  induction data as [|fila data IH]; [reflexivity|].
  simpl. rewrite IH, asignar_fila_map. reflexivity.
Qed.

(** The three masked assignments, read cell by cell. *)
Lemma clasificar_clase (data : list (list Q)) (nd lo hi : Q) :
  clasificar data nd lo hi = map (map (clase nd lo hi)) data.
Proof.
  unfold clasificar, zeros. rewrite !asignar_map.
  apply map_ext. intro fila. apply map_ext. intro d.
  unfold clase. destruct (gtb d hi); [reflexivity|].
  destruct (gtb d lo && Raster.leb d hi); reflexivity.
Qed.

Lemma celda_map {A B} (f : A -> B) (g : list (list A)) (r c : nat) :
  celda (map (map f) g) r c = option_map f (celda g r c).
Proof.
  unfold celda. rewrite nth_error_map.
  destruct (nth_error g r) as [fila|]; [|reflexivity].
  simpl. apply nth_error_map.
Qed.

Lemma celda_In {A} (g : list (list A)) (r c : nat) (v : A) :
  celda g r c = Some v -> In v (concat g).
Proof.
  unfold celda. destruct (nth_error g r) as [fila|] eqn:E; [|discriminate].
  intro H. apply in_concat. exists fila.
  split; [exact (nth_error_In _ _ E) | exact (nth_error_In _ _ H)].
Qed.

(** *** Runs of [clasificar_raster_amenaza] *)

Lemma clasificar_raster_Ok (src : raster Q) (out : raster Z) (lo hi : Q) :
  clasificar_raster_amenaza src = Ok (out, (lo, hi)) ->
  np_quantile (valores_reales (banda src) (nodata src)) (33 # 100) = Ok lo /\
  np_quantile (valores_reales (banda src) (nodata src)) (66 # 100) = Ok hi /\
  banda out = map (map (clase (nodata src) lo hi)) (banda src) /\
  nodata out = 0%Z.
Proof.
  unfold clasificar_raster_amenaza. cbv zeta.
  destruct (np_quantile _ (33 # 100)) as [l|e] eqn:E1; [|discriminate].
  destruct (np_quantile _ (66 # 100)) as [h|e] eqn:E2; [|discriminate].
  cbn [bind]. intro E. injection E as <- <- <-.
  repeat split. cbn [banda]. apply clasificar_clase.
Qed.

Lemma clase_bajo (nd lo hi d : Q) :
  lo <= hi -> nd < d -> d == lo -> clase nd lo hi d = 1%Z.
Proof.
  intros H1 H2 H3. unfold clase.
  assert (G1 : gtb d hi = false) by (apply gtb_false; lra).
  assert (G2 : gtb d lo = false) by (apply gtb_false; lra).
  assert (G3 : gtb d nd = true) by (apply gtb_true; exact H2).
  assert (G4 : Raster.leb d lo = true) by (apply leb_true; lra).
  rewrite G1, G2, G3, G4. reflexivity.
Qed.

Lemma clase_alto (nd lo hi d : Q) :
  lo < hi -> d == hi -> clase nd lo hi d = 2%Z.
Proof.
  intros H1 H2. unfold clase.
  assert (G1 : gtb d hi = false) by (apply gtb_false; lra).
  assert (G2 : gtb d lo = true) by (apply gtb_true; lra).
  assert (G4 : Raster.leb d hi = true) by (apply leb_true; lra).
  rewrite G1, G2, G4. reflexivity.
Qed.

Lemma clase_no_3 (nd lo hi d : Q) : d <= hi -> clase nd lo hi d <> 3%Z.
Proof.
  intro H. unfold clase.
  assert (G1 : gtb d hi = false) by (apply gtb_false; exact H).
  rewrite G1.
  destruct (gtb d lo && Raster.leb d hi); [discriminate|].
  destruct (gtb d nd && Raster.leb d lo); discriminate.
Qed.

(** C5 as the code has it: whatever thresholds (umbral_bajo,
    umbral_alto) the three assignments are given, a cell that lies above
    the NoData value and equals umbral_bajo gets 1 when
    umbral_bajo <= umbral_alto; a cell that equals umbral_alto gets 2
    when umbral_bajo < umbral_alto, gets 1 when the two thresholds
    coincide and it lies above the NoData value, and never gets 3. *)
Theorem C5_boundary_cells (data : list (list Q)) (nd lo hi : Q)
    (r c : nat) (d : Q) :
  celda data r c = Some d ->
  (nd < d -> d == lo -> lo <= hi ->
     celda (clasificar data nd lo hi) r c = Some 1%Z) /\
  (d == hi -> lo < hi -> celda (clasificar data nd lo hi) r c = Some 2%Z) /\
  (d == hi -> lo == hi -> nd < d ->
     celda (clasificar data nd lo hi) r c = Some 1%Z) /\
  (d == hi -> celda (clasificar data nd lo hi) r c <> Some 3%Z).
Proof.
  intro Hd. rewrite clasificar_clase, celda_map, Hd. cbn [option_map].
  split; [|split; [|split]].
  - intros A B C. f_equal. apply clase_bajo; assumption.
  - intros A B. f_equal. apply clase_alto; assumption.
  - intros A B C. f_equal. apply clase_bajo; lra.
  - intros A E. injection E as E. revert E. apply clase_no_3. lra.
Qed.

Lemma C5_witness :
  celda (clasificar [[1; 2; 3]] (-9999) 2 3) 0 1 = Some 1%Z /\
  celda (clasificar [[1; 2; 3]] (-9999) 2 3) 0 2 = Some 2%Z.
Proof.
  split.
  - destruct (C5_boundary_cells [[1; 2; 3]] (-9999) 2 3 0 1 2 eq_refl)
      as [H _].
    apply H; [reflexivity | reflexivity | unfold Qle; simpl; lia].
  - destruct (C5_boundary_cells [[1; 2; 3]] (-9999) 2 3 0 2 3 eq_refl)
      as [_ [H _]].
    apply H; reflexivity.
Defined.

(** With every valid cell equal to 5 the two thresholds coincide at 5;
    the cell equals umbral_alto and is not NoData, and gets 1, not 2. *)
Lemma C5_counterexample :
  let src := mk_raster [[5; 5; 5]] (-9999) (Affine 1 0 0 0 (-1) 0) "EPSG:3116" in
  celda (banda src) 0 0 = Some 5 /\
  neb 5 (nodata src) = true /\
  match clasificar_raster_amenaza src with
  | Ok (out, (lo, hi)) =>
      5 == hi /\ celda (banda out) 0 0 = Some 1%Z /\
      celda (banda out) 0 0 <> Some 2%Z
  | Raise _ => False
  end.
Proof.
  vm_compute. repeat split. discriminate.
Qed.

(** C6: when every cell of the source equals the NoData value the
    selection handed to [np.quantile] is empty, and
    [clasificar_raster_amenaza] raises instead of returning a raster or
    thresholds. *)
Theorem C6_empty_distribution_raises (src : raster Q) :
  (forall fila d, In fila (banda src) -> In d fila -> d == nodata src) ->
  valores_reales (banda src) (nodata src) = [] /\
  clasificar_raster_amenaza src = Raise IndexError.
Proof.
  intro H.
  assert (E : valores_reales (banda src) (nodata src) = []).
  { unfold valores_reales.
    assert (K : forall d, In d (concat (banda src)) -> d == nodata src).
    { intros d Hd. apply in_concat in Hd. destruct Hd as [fila [F1 F2]].
      exact (H fila d F1 F2). }
    induction (concat (banda src)) as [|d l IH]; [reflexivity|].
    simpl. rewrite (proj2 (neb_false d (nodata src))) by (apply K; left; reflexivity).
    apply IH. intros d' Hd'. apply K. right. exact Hd'. }
  split; [exact E|].
  unfold clasificar_raster_amenaza. cbv zeta. rewrite E. reflexivity.
Qed.

Lemma C6_witness :
  clasificar_raster_amenaza
    (mk_raster [[-9999; -9999]; [-9999; -9999]] (-9999)
               (Affine 1 0 0 0 (-1) 0) "EPSG:3116")
  = Raise IndexError.
Proof.
  apply (C6_empty_distribution_raises
           (mk_raster [[-9999; -9999]; [-9999; -9999]] (-9999)
                      (Affine 1 0 0 0 (-1) 0) "EPSG:3116")).
  intros fila d Hf Hd. cbn [banda nodata] in *.
  destruct Hf as [<-|[<-|[]]];
    (destruct Hd as [<-|[<-|[]]]; reflexivity).
Defined.

(** *** Cells above and at the sentinel *)

Lemma clase_nodata (nd lo hi d : Q) :
  nd < lo -> lo <= hi -> d == nd -> clase nd lo hi d = 0%Z.
Proof.
  intros H1 H2 H3. unfold clase.
  assert (G1 : gtb d hi = false) by (apply gtb_false; lra).
  assert (G2 : gtb d lo = false) by (apply gtb_false; lra).
  assert (G3 : gtb d nd = false) by (apply gtb_false; lra).
  rewrite G1, G2, G3. reflexivity.
Qed.

Lemma clase_valida (nd lo hi d : Q) :
  nd < d ->
  clase nd lo hi d = 1%Z \/ clase nd lo hi d = 2%Z \/ clase nd lo hi d = 3%Z.
Proof.
  intro H. unfold clase.
  destruct (gtb d hi) eqn:G1; [right; right; reflexivity|].
  apply gtb_false in G1. rewrite (proj2 (leb_true d hi) G1).
  destruct (gtb d lo) eqn:G2; [right; left; reflexivity|].
  apply gtb_false in G2.
  rewrite (proj2 (gtb_true d nd) H), (proj2 (leb_true d lo) G2).
  left. reflexivity.
Qed.

(** C2 at a grid whose NoData value (255) lies above the data: the
    valid cell 10 keeps the code 0, the two NoData cells get 3, and the
    three class counts plus the NoData count give 6 for 5 cells. *)
Theorem C2_nodata_above_values :
  let src := mk_raster [[10; 20; 30; 255; 255]] 255
                       (Affine 1 0 0 0 (-1) 0) "EPSG:3116" in
  valores_reales (banda src) (nodata src) = [10; 20; 30] /\
  length (concat (banda src)) = 5%nat /\
  match clasificar_raster_amenaza src with
  | Ok (out, _) =>
      banda out = [[0; 2; 3; 3; 3]]%Z /\
      (contar 1 (banda out) + contar 2 (banda out) + contar 3 (banda out)
       + contar_si (fun d => negb (neb d (nodata src))) (banda src) = 6)%nat
  | Raise _ => False
  end.
Proof.
  vm_compute. repeat split.
Qed.

End ClasificacionFacts.

(** ** Reprojection and point sampling *)

Section MuestreoFacts.

Lemma remuestrear_valor (origen : nat -> nat -> Z * Z) (src : raster Z)
    (row col : nat) :
  remuestrear origen src row col = nodata src \/
  In (remuestrear origen src row col) (concat (banda src)).
Proof.
  unfold remuestrear. destruct (origen row col) as [r c].
  destruct ((0 <=? r) && (0 <=? c))%Z; [|left; reflexivity].
  destruct (celda (banda src) (Z.to_nat r) (Z.to_nat c)) as [v|] eqn:E.
  - right. exact (celda_In _ _ _ _ E).
  - left. reflexivity.
Qed.

End MuestreoFacts.

(** * Further properties of the code *)

(** ** Alert evaluation and fleet summary *)

Section FlotaFacts.
Import Flota.

Lemma decision_monotona (y r v w : Q) :
  v <= w -> (alerta_map (decision y r v) <= alerta_map (decision y r w))%Z.
Proof.
  intro H. unfold decision.
  destruct (geb v r) eqn:A.
  - apply geb_true in A.
    rewrite (proj2 (geb_true w r)) by lra. reflexivity.
  - destruct (geb w r) eqn:B.
    + destruct (geb v y); simpl; lia.
    + destruct (geb v y) eqn:C.
      * apply geb_true in C.
        rewrite (proj2 (geb_true w y)) by lra. reflexivity.
      * destruct (geb w y); simpl; lia.
Qed.

Lemma decision_umbral_monotona (y1 r1 y2 r2 v : Q) :
  y2 <= y1 -> r2 <= r1 ->
  (alerta_map (decision y1 r1 v) <= alerta_map (decision y2 r2 v))%Z.
Proof.
  intros Hy Hr. unfold decision.
  destruct (geb v r1) eqn:A.
  - apply geb_true in A.
    rewrite (proj2 (geb_true v r2)) by lra. reflexivity.
  - destruct (geb v r2) eqn:B.
    + destruct (geb v y1); simpl; lia.
    + destruct (geb v y1) eqn:C.
      * apply geb_true in C.
        rewrite (proj2 (geb_true v y2)) by lra. reflexivity.
      * destruct (geb v y2); simpl; lia.
Qed.

Lemma seleccionar_In (m : umbrales) (a : string) (f : fila_umbral) :
  In f (seleccionar m a) <-> In f m /\ Amenaza_Nivel f = a.
Proof.
  unfold seleccionar. rewrite filter_In, String.eqb_eq. reflexivity.
Qed.

Lemma seleccionar_presente (m : umbrales) (a : string) :
  In a (map Amenaza_Nivel m) -> exists f rest, seleccionar m a = f :: rest.
Proof.
  intro H. apply in_map_iff in H. destruct H as [f [E Hf]].
  assert (K : In f (seleccionar m a)) by (apply seleccionar_In; split; assumption).
  destruct (seleccionar m a) as [|g rest]; [contradiction|].
  exists g, rest. reflexivity.
Qed.

Lemma prioridad_decision (y r v : Q) :
  snd (match decision y r v with
       | ROJA => (ROJA, 3%Z)
       | AMARILLA => (AMARILLA, 2%Z)
       | VERDE => (VERDE, 1%Z)
       end) = (alerta_map (decision y r v) + 1)%Z.
Proof. destruct (decision y r v); reflexivity. Qed.

Lemma temporal_monotona (m : umbrales) (a : string) (v w : Q) :
  v <= w ->
  (alerta_map (calcular_alerta_temporal m v a)
     <= alerta_map (calcular_alerta_temporal m w a))%Z.
Proof.
  intro H. destruct (seleccionar m a) as [|f rest] eqn:E.
  - unfold calcular_alerta_temporal. rewrite E. simpl. lia.
  - rewrite !(temporal_decision m a _ f rest E). apply decision_monotona. exact H.
Qed.

(** X1: more accumulated rain never lowers the alert: for every matrix,
    also one whose rows are out of order, and every hazard level, the
    level and the priority are monotone in the rainfall value. *)
Theorem X1_alert_monotone_in_rain (m : umbrales) (a : string) (v w : Q) :
  v <= w ->
  (alerta_map (calcular_alerta_temporal m v a)
     <= alerta_map (calcular_alerta_temporal m w a))%Z /\
  (alerta_map (fst (calcular_nivel_alerta a v m))
     <= alerta_map (fst (calcular_nivel_alerta a w m)))%Z /\
  (snd (calcular_nivel_alerta a v m) <= snd (calcular_nivel_alerta a w m))%Z.
Proof.
  intro H. rewrite !nivel_fst_temporal.
  destruct (seleccionar m a) as [|f rest] eqn:E.
  - unfold calcular_alerta_temporal, calcular_nivel_alerta. rewrite E.
    simpl. lia.
  - rewrite !(temporal_decision m a _ f rest E).
    rewrite !(nivel_prioridad m a _ f rest E), !prioridad_decision.
    pose proof (decision_monotona (Umbral_Amarillo_mm f) (Umbral_Rojo_mm f) v w H).
    lia.
Qed.

Lemma X1_witness :
  (alerta_map (calcular_alerta_temporal umbrales_por_defecto 90 "Alta")
     <= alerta_map (calcular_alerta_temporal umbrales_por_defecto 130 "Alta"))%Z.
Proof.
  apply (X1_alert_monotone_in_rain umbrales_por_defecto "Alta" 90 130).
  unfold Qle. simpl. lia.
Defined.

(** X2: the two evaluators return the same level; the priority of
    [calcular_nivel_alerta] is 0 exactly when the hazard level names no
    row of the matrix, and is the chart code of the level plus one
    (1, 2 or 3) otherwise, so a tower of unknown level sorts below every
    tower of a known one. *)
Theorem X2_priority_codes (m : umbrales) (a : string) (v : Q) :
  fst (calcular_nivel_alerta a v m) = calcular_alerta_temporal m v a /\
  (snd (calcular_nivel_alerta a v m) = 0%Z <-> ~ In a (map Amenaza_Nivel m)) /\
  (In a (map Amenaza_Nivel m) ->
     snd (calcular_nivel_alerta a v m)
       = (alerta_map (fst (calcular_nivel_alerta a v m)) + 1)%Z).
Proof.
  split; [apply nivel_fst_temporal|].
  assert (P : In a (map Amenaza_Nivel m) ->
              snd (calcular_nivel_alerta a v m)
              = (alerta_map (fst (calcular_nivel_alerta a v m)) + 1)%Z).
  { intro H. destruct (seleccionar_presente m a H) as [f [rest E]].
    rewrite (nivel_prioridad m a v f rest E).
    destruct (decision _ _ v); reflexivity. }
  split; [|exact P].
  split.
  - intros Z0 H. specialize (P H). rewrite Z0 in P.
    destruct (fst (calcular_nivel_alerta a v m)); simpl in P; lia.
  - intro H. apply seleccionar_ausente in H.
    unfold calcular_nivel_alerta. rewrite H. reflexivity.
Qed.

Lemma X2_witness :
  snd (calcular_nivel_alerta "Media" 160 umbrales_por_defecto) = 2%Z.
Proof.
  destruct (X2_priority_codes umbrales_por_defecto "Media" 160) as [_ [_ H]].
  rewrite H.
  - reflexivity.
  - simpl. right. right. left. reflexivity.
Defined.

Lemma mapa_amenaza_num_inv (a : string) (i : Z) :
  Simulacion.mapa_amenaza_num a = Some i ->
  (a = "Muy Baja"%string /\ i = 1%Z) \/ (a = "Baja"%string /\ i = 2%Z) \/
  (a = "Media"%string /\ i = 3%Z) \/ (a = "Alta"%string /\ i = 4%Z) \/
  (a = "Muy Alta"%string /\ i = 5%Z).
Proof.
  unfold Simulacion.mapa_amenaza_num.
  destruct (String.eqb a "Muy Baja") eqn:E1;
    [apply String.eqb_eq in E1; intro H; injection H as <-; auto|].
  destruct (String.eqb a "Baja") eqn:E2;
    [apply String.eqb_eq in E2; intro H; injection H as <-; auto|].
  destruct (String.eqb a "Media") eqn:E3;
    [apply String.eqb_eq in E3; intro H; injection H as <-; auto|].
  destruct (String.eqb a "Alta") eqn:E4;
    [apply String.eqb_eq in E4; intro H; injection H as <-; auto 6|].
  destruct (String.eqb a "Muy Alta") eqn:E5;
    [apply String.eqb_eq in E5; intro H; injection H as <-; auto 6|].
  discriminate.
Qed.

Lemma temporal_por_defecto (v : Q) :
  calcular_alerta_temporal umbrales_por_defecto v "Muy Baja" = decision 250 300 v /\
  calcular_alerta_temporal umbrales_por_defecto v "Baja" = decision 200 250 v /\
  calcular_alerta_temporal umbrales_por_defecto v "Media" = decision 150 200 v /\
  calcular_alerta_temporal umbrales_por_defecto v "Alta" = decision 100 120 v /\
  calcular_alerta_temporal umbrales_por_defecto v "Muy Alta" = decision 80 100 v.
Proof. repeat split. Qed.

Ltac umbral_menor :=
  apply decision_umbral_monotona; unfold Qle; simpl; lia.

(** X3: with the default matrix and the hazard levels ordered by their
    numeric value (Muy Baja 1 ... Muy Alta 5), a higher hazard level
    never gives a lower alert for the same accumulated rainfall. *)
Theorem X3_default_matrix_monotone_in_hazard (a b : string) (i j : Z) (v : Q) :
  Simulacion.mapa_amenaza_num a = Some i ->
  Simulacion.mapa_amenaza_num b = Some j ->
  (i <= j)%Z ->
  (alerta_map (calcular_alerta_temporal umbrales_por_defecto v a)
     <= alerta_map (calcular_alerta_temporal umbrales_por_defecto v b))%Z.
Proof.
  intros Ha Hb Hij.
  destruct (temporal_por_defecto v) as [T1 [T2 [T3 [T4 T5]]]].
  apply mapa_amenaza_num_inv in Ha. apply mapa_amenaza_num_inv in Hb.
  destruct Ha as [[-> ->]|[[-> ->]|[[-> ->]|[[-> ->]|[-> ->]]]]];
    destruct Hb as [[-> ->]|[[-> ->]|[[-> ->]|[[-> ->]|[-> ->]]]]];
    try lia;
    rewrite ?T1, ?T2, ?T3, ?T4, ?T5; umbral_menor.
Qed.

Lemma X3_witness :
  (alerta_map (calcular_alerta_temporal umbrales_por_defecto 110 "Media")
     <= alerta_map (calcular_alerta_temporal umbrales_por_defecto 110 "Alta"))%Z.
Proof.
  apply (X3_default_matrix_monotone_in_hazard "Media" "Alta" 3 4 110);
    [reflexivity | reflexivity | lia].
Defined.

Lemma suma_serie_no_negativa (s : serie) :
  (forall v, In (Some v) s -> 0 <= v) -> 0 <= suma_serie s.
Proof.
  induction s as [|x s IH]; intro H; simpl; [lra|].
  assert (IH' := IH (fun v Hv => H v (or_intror Hv))).
  destruct x as [v|]; simpl.
  - pose proof (H v (or_introl eq_refl)). lra.
  - lra.
Qed.

Lemma suma_serie_skipn (s : serie) (k : nat) :
  (forall v, In (Some v) s -> 0 <= v) ->
  suma_serie (skipn k s) <= suma_serie s.
Proof.
  revert s. induction k as [|k IH]; intros s H; [simpl; lra|].
  destruct s as [|x s]; [simpl; lra|].
  simpl skipn.
  assert (H' : forall v, In (Some v) s -> 0 <= v)
    by (intros v Hv; apply H; right; exact Hv).
  specialize (IH s H'). simpl.
  destruct x as [v|]; simpl.
  - pose proof (H v (or_introl eq_refl)). lra.
  - lra.
Qed.



(** X5: a tower whose rainfall request failed is evaluated with 0 mm:
    with a matrix whose yellow and red boundaries are all positive (the
    default one is) its alert is VERDE whatever its hazard level, as for
    a tower on which no rain fell. *)
Theorem X5_failed_request_is_green (m : umbrales) (t : torre_base) :
  (forall f, In f m -> 0 < Umbral_Amarillo_mm f /\ 0 < Umbral_Rojo_mm f) ->
  tb_lluvia t = None ->
  Lluvia_72h (evaluar_torre m t) = 0 /\
  Lluvia_24h (evaluar_torre m t) = 0 /\
  Nivel_Alerta (evaluar_torre m t) = VERDE.
Proof.
  intros Hpos Hnone. unfold evaluar_torre. rewrite Hnone. cbn [resumen_lluvia].
  destruct (calcular_nivel_alerta (tb_Amenaza_SGC t) 0 m) as [nivel prioridad] eqn:E.
  cbn [Lluvia_72h Lluvia_24h Nivel_Alerta]. split; [reflexivity|].
  split; [reflexivity|].
  change nivel with (fst (nivel, prioridad)). rewrite <- E, nivel_fst_temporal.
  destruct (seleccionar m (tb_Amenaza_SGC t)) as [|f rest] eqn:S.
  - unfold calcular_alerta_temporal. rewrite S. reflexivity.
  - rewrite (temporal_decision m _ 0 f rest S).
    assert (Hf : In f m).
    { apply (seleccionar_In m (tb_Amenaza_SGC t) f). rewrite S. left. reflexivity. }
    destruct (Hpos f Hf) as [Hy Hr].
    apply decision_verde; assumption.
Qed.

Lemma X5_witness :
  Nivel_Alerta (evaluar_torre umbrales_por_defecto
                  (mk_torre_base "TORRE_001" "Muy Alta" "Alto" None)) = VERDE.
Proof.
  apply (X5_failed_request_is_green umbrales_por_defecto
           (mk_torre_base "TORRE_001" "Muy Alta" "Alto" None)).
  - intros f Hf. simpl in Hf.
    destruct Hf as [<-|[<-|[<-|[<-|[<-|[]]]]]]; split; reflexivity.
  - reflexivity.
Defined.

Lemma filter_sin_clave (k : string) (l : list torre_base) :
  ~ In k (map tb_ID_Torre l) ->
  filter (fun d : string * (Q * Q) => String.eqb (fst d) k) (datos_lluvia l) = [].
Proof.
  induction l as [|t l IH]; intro H; [reflexivity|].
  simpl in *. destruct (String.eqb (tb_ID_Torre t) k) eqn:E.
  - apply String.eqb_eq in E. exfalso. apply H. left. exact E.
  - apply IH. intro K. apply H. right. exact K.
Qed.

Lemma filter_clave_unica (l : list torre_base) (t : torre_base) :
  NoDup (map tb_ID_Torre l) -> In t l ->
  filter (fun d : string * (Q * Q) => String.eqb (fst d) (tb_ID_Torre t))
         (datos_lluvia l)
  = [(tb_ID_Torre t, resumen_lluvia (tb_lluvia t))].
Proof.
  induction l as [|u l IH]; intros Hnd Hin; [contradiction|].
  simpl in Hnd. inversion Hnd as [|k ks Hk Hks]; subst.
  destruct Hin as [<-|Hin].
  - simpl. rewrite String.eqb_refl. f_equal.
    apply filter_sin_clave. exact Hk.
  - simpl. destruct (String.eqb (tb_ID_Torre u) (tb_ID_Torre t)) eqn:E.
    + apply String.eqb_eq in E. exfalso. apply Hk. rewrite E.
      apply in_map. exact Hin.
    + apply IH; assumption.
Qed.

Lemma alerta_fila_torre (m : umbrales) (t : torre_base) :
  alerta_fila m (t, resumen_lluvia (tb_lluvia t)) = evaluar_torre m t.
Proof.
  unfold alerta_fila, evaluar_torre.
  destruct (resumen_lluvia (tb_lluvia t)) as [l72 l24]. reflexivity.
Qed.

Lemma evaluar_flota_sin_duplicados (m : umbrales) (torres_df : list torre_base) :
  NoDup (map tb_ID_Torre torres_df) ->
  evaluar_flota m torres_df = map (evaluar_torre m) torres_df.
Proof.
  intro Hnd. unfold evaluar_flota, merge_ID_Torre.
  assert (K : forall l, (forall t, In t l -> In t torres_df) ->
            map (alerta_fila m)
                (flat_map (fun t =>
                   map (fun d : string * (Q * Q) => (t, snd d))
                       (filter (fun d => String.eqb (fst d) (tb_ID_Torre t))
                               (datos_lluvia torres_df))) l)
            = map (evaluar_torre m) l).
  { induction l as [|t l IH]; intro Hsub; [reflexivity|].
    cbn [flat_map]. rewrite map_app, IH by (intros u Hu; apply Hsub; right; exact Hu).
    rewrite (filter_clave_unica torres_df t Hnd (Hsub t (or_introl eq_refl))).
    cbn [map app snd]. rewrite alerta_fila_torre. reflexivity. }
  apply K. auto.
Qed.

(** X6: every row of the fleet table gets exactly one of the three
    levels, so the three counts of the executive summary add up to the
    number of rows of the table; when the tower identifiers are distinct
    the merge on ID_Torre keeps one row per tower, in order, each
    evaluated on its own totals; with a repeated identifier the table
    has more rows than towers.  Likewise the three dwell counts of a
    tower add up to the length of its series. *)
Theorem X6_counts_partition (m : umbrales) (torres_df : list torre_base)
    (amenaza : string) (precipitation : serie) :
  (n_nivel ROJA (evaluar_flota m torres_df)
   + n_nivel AMARILLA (evaluar_flota m torres_df)
   + n_nivel VERDE (evaluar_flota m torres_df)
   = length (evaluar_flota m torres_df))%nat /\
  (NoDup (map tb_ID_Torre torres_df) ->
     evaluar_flota m torres_df = map (evaluar_torre m) torres_df /\
     length (evaluar_flota m torres_df) = length torres_df) /\
  length (evaluar_flota m [mk_torre_base "TORRE_001" "Alta" "Alto" None;
                           mk_torre_base "TORRE_001" "Baja" "Bajo" None]) = 4%nat /\
  (let '(_, _, (roja, amarilla, verde)) :=
     analisis_torre m amenaza precipitation in
   (roja + amarilla + verde = length precipitation)%nat).
Proof.
  split; [|split; [|split]].
  - unfold n_nivel.
    pose proof (tiempos_suman (map Nivel_Alerta (evaluar_flota m torres_df))) as H.
    unfold tiempo_roja, tiempo_amarilla, tiempo_verde in H.
    rewrite H. apply length_map.
  - intro Hnd. rewrite (evaluar_flota_sin_duplicados m torres_df Hnd).
    split; [reflexivity|apply length_map].
  - reflexivity.
  - unfold analisis_torre. cbv zeta.
    rewrite tiempos_suman. unfold nivel_alerta_temporal, precip_acum_72h, rolling_sum.
    rewrite length_map, roll_loop_length. reflexivity.
Qed.

Lemma X6_witness :
  length (evaluar_flota umbrales_por_defecto
            [mk_torre_base "TORRE_001" "Alta" "Alto" None;
             mk_torre_base "TORRE_002" "Baja" "Bajo" (Some [Some 1])]) = 2%nat.
Proof.
  destruct (X6_counts_partition umbrales_por_defecto
              [mk_torre_base "TORRE_001" "Alta" "Alto" None;
               mk_torre_base "TORRE_002" "Baja" "Bajo" (Some [Some 1])]
              "Alta" []) as [_ [H _]].
  apply H. simpl. repeat constructor; simpl; intuition discriminate.
Defined.

Lemma filter_conmuta {A} (p q : A -> bool) (l : list A) :
  filter q (filter p l) = filter p (filter q l).
Proof.
  induction l as [|t l IH]; [reflexivity|].
  cbn [filter]. destruct (p t) eqn:P; destruct (q t) eqn:R;
    cbn [filter]; rewrite ?P, ?R, IH; reflexivity.
Qed.

Lemma filter_ambos {A} (p q : A -> bool) (l : list A) :
  filter q (filter p l) = filter (fun t => p t && q t) l.
Proof.
  induction l as [|t l IH]; [reflexivity|].
  cbn [filter]. destruct (p t) eqn:P; cbn [filter andb]; rewrite IH; reflexivity.
Qed.

Lemma filter_todos {A} (l : list A) : filter (fun _ => true) l = l.
Proof. induction l as [|t l IH]; [reflexivity|]. simpl. f_equal. exact IH. Qed.

Lemma isin_In (x : string) (l : list string) : isin x l = true <-> In x l.
Proof.
  unfold isin. rewrite existsb_exists. split.
  - intros [y [Hy E]]. apply String.eqb_eq in E. subst y. exact Hy.
  - intro H. exists x. split; [exact H|apply String.eqb_refl].
Qed.

(** X7: a tower is shown in the filtered table exactly when it is in
    the fleet and passes each of the two filters, where an empty
    selection passes every tower; the filtered table keeps the order of
    the fleet, and the two filters commute. *)
Theorem X7_table_filters (fa fr : list string) (torres_df : list torre_alerta) :
  (forall t, In t (filtrar_torres fa fr torres_df) <->
     In t torres_df /\
     (fa = [] \/ In (Flota.Amenaza_SGC t) fa) /\
     (fr = [] \/ In (Flota.Clasificacion_Riesgo t) fr)) /\
  filtrar_torres [] [] torres_df = torres_df /\
  filtrar_torres fa fr torres_df
    = filtrar_torres fa [] (filtrar_torres [] fr torres_df) /\
  (exists keep, filtrar_torres fa fr torres_df = filter keep torres_df).
Proof.
  split; [|split; [reflexivity|split]].
  - intro t. unfold filtrar_torres.
    destruct fa as [|a fa]; destruct fr as [|r fr];
      rewrite ?filter_In, ?isin_In; intuition discriminate.
  - unfold filtrar_torres.
    destruct fa as [|a fa]; destruct fr as [|r fr]; try reflexivity.
    apply filter_conmuta.
  - unfold filtrar_torres.
    destruct fa as [|a fa]; destruct fr as [|r fr].
    + exists (fun _ => true). symmetry. apply filter_todos.
    + eexists. reflexivity.
    + eexists. reflexivity.
    + eexists. apply filter_ambos.
Qed.

End FlotaFacts.

(** ** Rolling accumulation over series with gaps *)

Section RollingGapsFacts.
Import Flota.

Lemma skipn_cons_nth {A} (d : A) (l : list A) (i : nat) :
  (i < length l)%nat -> skipn i l = nth i l d :: skipn (S i) l.
Proof.
  revert i. induction l as [|x l IH]; intros i H; simpl in H; [lia|].
  destruct i as [|i]; [reflexivity|].
  simpl. apply IH. lia.
Qed.

Lemma tramo_serie_quitar (lo hi : nat) (s : serie) :
  (lo < hi)%nat -> (lo < length s)%nat ->
  tramo_serie lo hi s = nth lo s None :: tramo_serie (S lo) hi s.
Proof.
  intros H1 H2. unfold tramo_serie.
  rewrite (skipn_cons_nth None s lo H2).
  replace (hi - lo)%nat with (S (hi - S lo)) by lia. reflexivity.
Qed.

Lemma firstn_snoc_nth {A} (d : A) (l : list A) (k : nat) :
  (k < length l)%nat -> firstn (S k) l = firstn k l ++ [nth k l d].
Proof.
  revert k. induction l as [|x l IH]; intros k H; simpl in H; [lia|].
  destruct k as [|k]; [reflexivity|].
  change (firstn (S (S k)) (x :: l)) with (x :: firstn (S k) l).
  rewrite IH by lia. reflexivity.
Qed.

Lemma nth_skipn_gen {A} (d : A) (l : list A) (lo k : nat) :
  nth k (skipn lo l) d = nth (lo + k) l d.
Proof.
  revert l. induction lo as [|lo IH]; intros l; [reflexivity|].
  destruct l as [|x l]; simpl.
  - destruct k; reflexivity.
  - apply IH.
Qed.

Lemma tramo_serie_anadir (lo hi : nat) (s : serie) :
  (lo <= hi)%nat -> (hi < length s)%nat ->
  tramo_serie lo (S hi) s = tramo_serie lo hi s ++ [nth hi s None].
Proof.
  intros H1 H2. unfold tramo_serie.
  replace (S hi - lo)%nat with (S (hi - lo)) by lia.
  rewrite (firstn_snoc_nth None) by (rewrite length_skipn; lia).
  rewrite nth_skipn_gen.
  replace (lo + (hi - lo))%nat with hi by lia. reflexivity.
Qed.

Lemma suma_serie_app (l1 l2 : serie) :
  suma_serie (l1 ++ l2) == suma_serie l1 + suma_serie l2.
Proof.
  induction l1 as [|x l1 IH]; simpl; [ring|]. rewrite IH. ring.
Qed.

Lemma validos_app (l1 l2 : serie) :
  validos (l1 ++ l2) = (validos l1 + validos l2)%nat.
Proof. unfold validos. rewrite filter_app, length_app. reflexivity. Qed.

Lemma remove_sum_inv (x : option Q) (l : serie) (st : estado) :
  fst st == suma_serie (x :: l) -> snd st = validos (x :: l) ->
  fst (remove_sum x st) == suma_serie l /\ snd (remove_sum x st) = validos l.
Proof.
  intros H1 H2. destruct x as [v|]; unfold remove_sum; cbn [fst snd].
  - split.
    + rewrite H1. simpl. ring.
    + rewrite H2. reflexivity.
  - split.
    + rewrite H1. simpl. ring.
    + rewrite H2. reflexivity.
Qed.

Lemma add_sum_inv (x : option Q) (l : serie) (st : estado) :
  fst st == suma_serie l -> snd st = validos l ->
  fst (add_sum x st) == suma_serie (l ++ [x]) /\
  snd (add_sum x st) = validos (l ++ [x]).
Proof.
  intros H1 H2. rewrite suma_serie_app, validos_app.
  destruct x as [v|]; unfold add_sum; cbn [fst snd].
  - split.
    + rewrite H1. simpl. ring.
    + rewrite H2. unfold validos. simpl. lia.
  - split.
    + rewrite H1. simpl. ring.
    + rewrite H2. unfold validos. simpl. lia.
Qed.

(** The forward pass on any series: before index [i] the state holds
    the sum and the count of the non-NaN samples [i - window .. i - 1]. *)
Lemma roll_loop_serie (s : serie) (window minp : nat) :
  (1 <= window)%nat ->
  forall (pend : serie) (i : nat) (st : estado),
    pend = skipn i s ->
    fst st == suma_serie (tramo_serie (i - window) i s) ->
    snd st = validos (tramo_serie (i - window) i s) ->
    forall k, (k < length pend)%nat ->
    exists st',
      nth_error (roll_loop s window minp pend i st) k = Some (calc_sum minp st') /\
      fst st' == suma_serie (ventana_serie window s (i + k)) /\
      snd st' = validos (ventana_serie window s (i + k)).
Proof.
  intros Hw pend. induction pend as [|x pend IH]; intros i st Hp Hs Hn k Hk.
  - simpl in Hk. lia.
  - assert (Hi : (i < length s)%nat).
    { destruct (Nat.lt_ge_cases i (length s)) as [L|L]; [exact L|].
      rewrite skipn_all2 in Hp by exact L. discriminate. }
    rewrite (skipn_cons_nth None s i Hi) in Hp. injection Hp as Hx Hrest.
    cbn [roll_loop].
    set (st1 := if (window <=? i)%nat
                then match nth_error s (i - window) with
                     | Some old => remove_sum old st
                     | None => st
                     end
                else st).
    assert (H1 : fst st1 == suma_serie (tramo_serie (S i - window) i s) /\
                 snd st1 = validos (tramo_serie (S i - window) i s)).
    { unfold st1. destruct (window <=? i)%nat eqn:E.
      - apply Nat.leb_le in E.
        rewrite (nth_error_nth' s None) by lia.
        rewrite (tramo_serie_quitar (i - window) i s) in Hs, Hn by lia.
        replace (S (i - window)) with (S i - window)%nat in Hs, Hn by lia.
        apply remove_sum_inv; assumption.
      - apply Nat.leb_gt in E.
        replace (S i - window)%nat with (i - window)%nat by lia.
        split; assumption. }
    destruct H1 as [H1s H1n].
    set (st2 := add_sum x st1).
    assert (H2 : fst st2 == suma_serie (tramo_serie (S i - window) (S i) s) /\
                 snd st2 = validos (tramo_serie (S i - window) (S i) s)).
    { rewrite (tramo_serie_anadir (S i - window) i s) by lia.
      rewrite <- Hx. apply add_sum_inv; assumption. }
    destruct H2 as [H2s H2n].
    destruct k as [|k].
    + exists st2. rewrite Nat.add_0_r. cbn [nth_error].
      split; [reflexivity|]. split; [exact H2s|exact H2n].
    + cbn [nth_error].
      replace (i + S k)%nat with (S i + k)%nat by lia.
      apply (IH (S i) st2);
        [exact Hrest | exact H2s | exact H2n | simpl in Hk; lia].
Qed.

Lemma acumulado_con_huecos (s : serie) (i : nat) :
  (i < length s)%nat ->
  (validos (ventana_serie 72 s i) = 0%nat ->
     nth_error (precip_acum_72h s) i = Some None) /\
  ((1 <= validos (ventana_serie 72 s i))%nat ->
     exists v, nth_error (precip_acum_72h s) i = Some (Some v) /\
               v == suma_serie (ventana_serie 72 s i)).
Proof.
  intro Hi.
  destruct (roll_loop_serie s 72 1 ltac:(lia) s 0%nat (0, 0%nat)
              eq_refl ltac:(reflexivity) eq_refl i Hi) as [st [E [Hs Hn]]].
  change (0 + i)%nat with i in Hs, Hn.
  unfold precip_acum_72h, rolling_sum. rewrite E. unfold calc_sum. rewrite Hn.
  split.
  - intro Z0. rewrite Z0. reflexivity.
  - intro P. destruct (1 <=? validos (ventana_serie 72 s i))%nat eqn:B.
    + exists (fst st). split; [reflexivity|exact Hs].
    + apply Nat.leb_gt in B. lia.
Qed.

(** X8: on any hourly series, gaps included, the accumulated series has
    the length of the input, and its entry [i] is NaN when every sample
    of the window [max(0, i-71) .. i] is NaN; when the samples present
    are whole numbers of millimetres (at most 2^46 each, so that every
    float64 running sum is exact), the entry is otherwise the sum of the
    non-NaN samples of that window: a gap counts as 0 mm as soon as one
    sample of the window is present. *)
Theorem X8_rolling_with_gaps (s : serie) (i : nat) :
  (i < length s)%nat ->
  length (precip_acum_72h s) = length s /\
  (validos (ventana_serie 72 s i) = 0%nat ->
     nth_error (precip_acum_72h s) i = Some None) /\
  ((forall v, In (Some v) s ->
      exists z : Z, v == inject_Z z /\ (Z.abs z <= 2 ^ 46)%Z) ->
   (1 <= validos (ventana_serie 72 s i))%nat ->
     exists v, nth_error (precip_acum_72h s) i = Some (Some v) /\
               v == suma_serie (ventana_serie 72 s i)).
Proof.
  intro Hi.
  split; [unfold precip_acum_72h, rolling_sum; apply roll_loop_length|].
  destruct (acumulado_con_huecos s i Hi) as [H0 H1].
  split; [exact H0|]. intros _. exact H1.
Qed.

Lemma X8_witness :
  nth_error (precip_acum_72h [None; Some 3; None]) 0 = Some None /\
  exists v, nth_error (precip_acum_72h [None; Some 3; None]) 2 = Some (Some v) /\
            v == 3.
Proof.
  split.
  - apply (X8_rolling_with_gaps [None; Some 3; None] 0); [simpl; lia|reflexivity].
  - destruct (X8_rolling_with_gaps [None; Some 3; None] 2) as [_ [_ H]];
      [simpl; lia|].
    destruct H as [v [E1 E2]].
    + intros v [K|[K|[K|[]]]]; try discriminate. injection K as <-.
      exists 3%Z. split; [reflexivity|vm_compute; discriminate].
    + vm_compute; lia.
    + exists v. split; [exact E1|].
      apply Qeq_trans with (suma_serie (ventana_serie 72 [None; Some 3; None] 2));
        [exact E2|vm_compute; reflexivity].
Defined.

Lemma suma_serie_firstn (s : serie) (k : nat) :
  (forall v, In (Some v) s -> 0 <= v) ->
  suma_serie (firstn k s) <= suma_serie s.
Proof.
  intro H. rewrite <- (firstn_skipn k s) at 2. rewrite suma_serie_app.
  assert (0 <= suma_serie (skipn k s)).
  { apply suma_serie_no_negativa. intros v Hv. apply H.
    rewrite <- (firstn_skipn k s). apply in_or_app. right. exact Hv. }
  lra.
Qed.

Lemma suma_ventana_serie_le (s : serie) (window i : nat) :
  (forall v, In (Some v) s -> 0 <= v) ->
  suma_serie (ventana_serie window s i) <= suma_serie s.
Proof.
  intro H. unfold ventana_serie, tramo_serie.
  apply Qle_trans with (suma_serie (skipn (S i - window) s)).
  - apply suma_serie_firstn. intros v Hv. apply H.
    rewrite <- (firstn_skipn (S i - window) s). apply in_or_app. right. exact Hv.
  - apply suma_serie_skipn. exact H.
Qed.

(** X9: the fleet column Lluvia_72h is the total of the whole series.
    For a series of at most 4096 samples that are non-negative whole
    numbers of millimetres (at most 2^40 each, so that both float64 sums
    are exact) it is at least every entry of the 72-hour accumulated
    series of the same samples, and it equals the last entry when the
    series has at most 72 samples; so the fleet alert computed from it
    is never lower than the alert the tower analysis shows at any hour
    of that series. *)
Theorem X9_fleet_total_bounds_rolling (m : umbrales) (a : string) (s : serie)
    (i : nat) (x : option Q) :
  (length s <= 4096)%nat ->
  (forall v, In (Some v) s ->
     exists z : Z, v == inject_Z z /\ (0 <= z <= 2 ^ 40)%Z) ->
  nth_error (precip_acum_72h s) i = Some x ->
  (forall v, x = Some v -> v <= fst (resumen_lluvia (Some s))) /\
  (forall v, x = Some v -> (length s <= 72)%nat -> S i = length s ->
     v == fst (resumen_lluvia (Some s))) /\
  (alerta_map (alerta_de m a x)
     <= alerta_map (fst (calcular_nivel_alerta a (fst (resumen_lluvia (Some s))) m)))%Z.
Proof.
  intros _ Hent Hx. cbn [resumen_lluvia fst].
  assert (Hpos : forall v, In (Some v) s -> 0 <= v).
  { intros v Hv. destruct (Hent v Hv) as [z [E [Z0 _]]].
    rewrite E. change 0 with (inject_Z 0). rewrite <- Zle_Qle. exact Z0. }
  assert (Hi : (i < length s)%nat).
  { assert (K : nth_error (precip_acum_72h s) i <> None) by (rewrite Hx; discriminate).
    apply nth_error_Some in K.
    unfold precip_acum_72h, rolling_sum in K.
    rewrite roll_loop_length in K. exact K. }
  destruct (acumulado_con_huecos s i Hi) as [H0 H1].
  assert (Hv : forall v, x = Some v -> v == suma_serie (ventana_serie 72 s i)).
  { intros v ->.
    destruct (Nat.eq_dec (validos (ventana_serie 72 s i)) 0) as [Z0|NZ].
    - rewrite (H0 Z0) in Hx. discriminate.
    - destruct (H1 ltac:(lia)) as [v' [E1 E2]].
      rewrite E1 in Hx. injection Hx as <-. exact E2. }
  assert (Hle : forall v, x = Some v -> v <= suma_serie s).
  { intros v E. rewrite (Hv v E). apply suma_ventana_serie_le. exact Hpos. }
  split; [exact Hle|]. split.
  - intros v E Hlen Hlast. rewrite (Hv v E).
    unfold ventana_serie, tramo_serie.
    replace (S i - 72)%nat with 0%nat by lia.
    rewrite Hlast, Nat.sub_0_r. cbn [skipn]. rewrite firstn_all. reflexivity.
  - rewrite nivel_fst_temporal. destruct x as [v|]; cbn [alerta_de].
    + apply temporal_monotona. exact (Hle v eq_refl).
    + destruct (calcular_alerta_temporal m (suma_serie s) a); simpl; lia.
Qed.

Lemma X9_witness :
  (alerta_map (alerta_de umbrales_por_defecto "Alta" (Some 3%Q))
     <= alerta_map (fst (calcular_nivel_alerta "Alta"
                          (fst (resumen_lluvia (Some [Some 1%Q; Some 2%Q])))
                          umbrales_por_defecto)))%Z.
Proof.
  apply (X9_fleet_total_bounds_rolling umbrales_por_defecto "Alta"
           [Some 1; Some 2] 1 (Some 3)).
  - simpl. lia.
  - intros v [H|[H|[]]]; injection H as <-;
      [exists 1%Z | exists 2%Z]; (split; [reflexivity|vm_compute; split; discriminate]).
  - reflexivity.
Defined.

End RollingGapsFacts.

(** ** Classification, sampling and the offline pipeline *)

Section RasterExtraFacts.

Lemma clase_rango (nd lo hi d : Q) : (0 <= clase nd lo hi d <= 3)%Z.
Proof.
  unfold clase. destruct (gtb d hi); [lia|].
  destruct (gtb d lo && Raster.leb d hi); [lia|].
  destruct (gtb d nd && Raster.leb d lo); lia.
Qed.

(** X10: a run of the classifier that returns keeps the shape of the
    grid (same number of rows, same row lengths), its geotransform and
    its CRS, declares the NoData value 0, and writes only the codes
    0, 1, 2 and 3. *)
Theorem X10_classified_raster_shape (src : raster Q) (out : raster Z) (lo hi : Q) :
  clasificar_raster_amenaza src = Ok (out, (lo, hi)) ->
  map (@length Z) (banda out) = map (@length Q) (banda src) /\
  (forall v, In v (concat (banda out)) -> (0 <= v <= 3)%Z) /\
  nodata out = 0%Z /\ transform out = transform src /\ crs out = crs src.
Proof.
  intro H. pose proof (clasificar_raster_Ok src out lo hi H) as [_ [_ [Hb Hn]]].
  split; [|split; [|split; [exact Hn|]]].
  - rewrite Hb, map_map. apply map_ext. intro fila. apply length_map.
  - intros v Hv. rewrite Hb, <- concat_map in Hv.
    apply in_map_iff in Hv. destruct Hv as [d [<- _]]. apply clase_rango.
  - unfold clasificar_raster_amenaza in H. cbv zeta in H.
    destruct (np_quantile _ (33 # 100)); [|discriminate].
    destruct (np_quantile _ (66 # 100)); [|discriminate].
    cbn [bind] in H. injection H as <- _ _. split; reflexivity.
Qed.

Lemma X10_witness :
  map (@length Z) [[1; 2; 3]%Z] = map (@length Q) [[1; 2; 3]].
Proof.
  destruct (X10_classified_raster_shape
              (mk_raster [[1; 2; 3]] (-9999) (Affine 1 0 0 0 (-1) 0) "EPSG:3116")
              (mk_raster [[1; 2; 3]]%Z 0%Z (Affine 1 0 0 0 (-1) 0) "EPSG:3116")
              (lerp 1 2 (virtual_index 3 (33 # 100) - inject_Z 0))
              (lerp 2 3 (virtual_index 3 (66 # 100) - inject_Z 1)))
    as [H _]; [vm_compute; reflexivity|].
  exact H.
Defined.

Lemma clase_monotona (nd lo hi d1 d2 : Q) :
  nd < d1 -> d1 <= d2 ->
  (clase nd lo hi d1 <= clase nd lo hi d2)%Z.
Proof.
  intros H1 H12. unfold clase.
  destruct (gtb d2 hi) eqn:A2.
  - pose proof (clase_rango nd lo hi d1) as R. unfold clase in R. lia.
  - apply gtb_false in A2.
    assert (A1 : gtb d1 hi = false) by (apply gtb_false; lra).
    rewrite A1, (proj2 (leb_true d1 hi)), (proj2 (leb_true d2 hi)) by lra.
    rewrite !andb_true_r.
    destruct (gtb d2 lo) eqn:B2.
    + destruct (gtb d1 lo); [lia|].
      destruct (gtb d1 nd && Raster.leb d1 lo); lia.
    + apply gtb_false in B2.
      assert (B1 : gtb d1 lo = false) by (apply gtb_false; lra).
      rewrite B1, (proj2 (gtb_true d1 nd)), (proj2 (gtb_true d2 nd)) by lra.
      rewrite (proj2 (leb_true d1 lo)), (proj2 (leb_true d2 lo)) by lra.
      simpl. lia.
Qed.

(** X12: classification preserves the order of the cells that lie above
    the NoData value: of two such cells, the one with the larger source
    value never gets the smaller class code. *)
Theorem X12_classification_order_preserving (src : raster Q) (out : raster Z)
    (lo hi : Q) (r1 c1 r2 c2 : nat) (d1 d2 : Q) :
  clasificar_raster_amenaza src = Ok (out, (lo, hi)) ->
  celda (banda src) r1 c1 = Some d1 ->
  celda (banda src) r2 c2 = Some d2 ->
  nodata src < d1 -> d1 <= d2 ->
  exists k1 k2,
    celda (banda out) r1 c1 = Some k1 /\ celda (banda out) r2 c2 = Some k2 /\
    (1 <= k1 <= k2)%Z /\ (k2 <= 3)%Z.
Proof.
  intros H E1 E2 Hnd H12.
  pose proof (clasificar_raster_Ok src out lo hi H) as [_ [_ [Hb _]]].
  exists (clase (nodata src) lo hi d1), (clase (nodata src) lo hi d2).
  rewrite Hb, !celda_map, E1, E2. cbn [option_map].
  split; [reflexivity|]. split; [reflexivity|].
  pose proof (clase_monotona (nodata src) lo hi d1 d2 Hnd H12).
  pose proof (clase_rango (nodata src) lo hi d2).
  destruct (clase_valida (nodata src) lo hi d1 Hnd) as [K|[K|K]]; lia.
Qed.

Lemma X12_witness :
  exists k1 k2,
    celda [[1; 2; 3]%Z] 0 0 = Some k1 /\ celda [[1; 2; 3]%Z] 0 2 = Some k2 /\
    (1 <= k1 <= k2)%Z /\ (k2 <= 3)%Z.
Proof.
  apply (X12_classification_order_preserving
           (mk_raster [[1; 2; 3]] (-9999) (Affine 1 0 0 0 (-1) 0) "EPSG:3116")
           (mk_raster [[1; 2; 3]]%Z 0%Z (Affine 1 0 0 0 (-1) 0) "EPSG:3116")
           (lerp 1 2 (virtual_index 3 (33 # 100) - inject_Z 0))
           (lerp 2 3 (virtual_index 3 (66 # 100) - inject_Z 1))
           0 0 0 2 1 3).
  - vm_compute. reflexivity.
  - reflexivity.
  - reflexivity.
  - reflexivity.
  - unfold Qle. simpl. lia.
Defined.

Lemma sample_valor (src : raster Z) (xy : Q * Q) :
  sample src xy = nodata src \/ In (sample src xy) (concat (banda src)).
Proof.
  unfold sample. destruct (rowcol (transform src) (fst xy) (snd xy)) as [r c].
  match goal with |- context [if ?g then _ else _] => destruct g end;
    [left; reflexivity|].
  destruct (celda (banda src) (Z.to_nat r) (Z.to_nat c)) as [v|] eqn:E.
  - right. exact (celda_In _ _ _ _ E).
  - left. reflexivity.
Qed.

Lemma reproyectar_valores (dst_transform : afin) (dst_width dst_height : nat)
    (origen : nat -> nat -> Z * Z) (src : raster Z) (v : Z) :
  In v (concat (banda (reproyectar_raster_wgs84 dst_transform dst_width
                                                dst_height origen src))) ->
  v = nodata src \/ In v (concat (banda src)).
Proof.
  intro Hv. apply in_concat in Hv. destruct Hv as [fila [F1 F2]].
  unfold reproyectar_raster_wgs84 in F1. cbn [banda] in F1.
  apply in_map_iff in F1. destruct F1 as [row [<- _]].
  apply in_map_iff in F2. destruct F2 as [col [<- _]].
  apply remuestrear_valor.
Qed.

Lemma combine_map_r {A B} (f : A -> B) (l : list A) :
  combine l (map f l) = map (fun x => (x, f x)) l.
Proof. induction l as [|x l IH]; [reflexivity|]. simpl. rewrite IH. reflexivity. Qed.

Lemma extraer_valores_torres_map (torres_df : list torre) (src : raster Z) :
  extraer_valores_torres torres_df src
  = map (fun t => (t, sample src (Longitud t, Latitud t),
                   mapa_amenaza (sample src (Longitud t, Latitud t))))
        torres_df.
Proof.
  unfold extraer_valores_torres. rewrite map_map, combine_map_r, map_map.
  reflexivity.
Qed.

(** X16: when the offline pipeline returns, whatever the reprojection
    geometry, its tower table has one row per input tower, in the input
    order, and every row holds a code among 0, 1, 2, 3 and the label of
    that code, one of 'Sin Datos', 'Baja', 'Media', 'Alta' (never a
    missing label); when classification raises, the pipeline raises the
    same exception and no table is produced. *)
Theorem X16_pipeline_tower_table (dst_transform : afin) (dst_width dst_height : nat)
    (origen : nat -> nat -> Z * Z) (src : raster Q) (torres_df : list torre) :
  (forall tabla,
     Pipeline.pipeline_completo dst_transform dst_width dst_height origen
                                src torres_df = Ok tabla ->
     map (fun fila => fst (fst fila)) tabla = torres_df /\
     forall t v etiqueta, In (t, v, etiqueta) tabla ->
       (0 <= v <= 3)%Z /\ etiqueta = mapa_amenaza v /\
       In etiqueta [Some "Sin Datos"; Some "Baja"; Some "Media"; Some "Alta"]%string) /\
  (forall e, clasificar_raster_amenaza src = Raise e ->
     Pipeline.pipeline_completo dst_transform dst_width dst_height origen
                                src torres_df = Raise e).
Proof.
  unfold Pipeline.pipeline_completo. split.
  - intros tabla H.
    destruct (clasificar_raster_amenaza src) as [[out [lo hi]]|e] eqn:E;
      [|discriminate].
    cbn [bind fst] in H. injection H as <-.
    pose proof (clasificar_raster_Ok src out lo hi E) as [_ [_ [Hb Hn]]].
    assert (Hout : forall v, In v (concat (banda out)) -> (0 <= v <= 3)%Z).
    { intros v Hv. rewrite Hb, <- concat_map in Hv.
      apply in_map_iff in Hv. destruct Hv as [d [<- _]]. apply clase_rango. }
    set (wgs84 := reproyectar_raster_wgs84 dst_transform dst_width dst_height
                                           origen out).
    assert (Hw : forall v, v = nodata wgs84 \/ In v (concat (banda wgs84)) ->
                           (0 <= v <= 3)%Z).
    { intros v [K|K].
      - rewrite K. unfold wgs84. cbn [reproyectar_raster_wgs84 nodata].
        rewrite Hn. lia.
      - destruct (reproyectar_valores _ _ _ _ _ _ K) as [K'|K'].
        + rewrite K', Hn. lia.
        + exact (Hout v K'). }
    rewrite extraer_valores_torres_map. split.
    + rewrite map_map. cbn [fst]. apply map_id.
    + intros t v etiqueta Hin. apply in_map_iff in Hin.
      destruct Hin as [t' [Ht' _]]. injection Ht' as <- <- <-.
      pose proof (Hw _ (sample_valor wgs84 (Longitud t', Latitud t'))) as R.
      split; [exact R|]. split; [reflexivity|].
      assert (K : sample wgs84 (Longitud t', Latitud t') = 0%Z \/
                  sample wgs84 (Longitud t', Latitud t') = 1%Z \/
                  sample wgs84 (Longitud t', Latitud t') = 2%Z \/
                  sample wgs84 (Longitud t', Latitud t') = 3%Z) by lia.
      destruct K as [K|[K|[K|K]]]; rewrite K; simpl; auto.
  - intros e E. rewrite E. reflexivity.
Qed.

Lemma X16_witness :
  Pipeline.pipeline_completo (Affine 1 0 0 0 (-1) 0) 2 1
    (fun row col => (Z.of_nat row, Z.of_nat col))
    (mk_raster [[-9999]] (-9999) (Affine 1 0 0 0 (-1) 0) "EPSG:3116")
    [mk_torre "TORRE_001" 7 (-72)]
  = Raise IndexError.
Proof.
  apply (X16_pipeline_tower_table (Affine 1 0 0 0 (-1) 0) 2 1
           (fun row col => (Z.of_nat row, Z.of_nat col))
           (mk_raster [[-9999]] (-9999) (Affine 1 0 0 0 (-1) 0) "EPSG:3116")
           [mk_torre "TORRE_001" 7 (-72)]).
  reflexivity.
Defined.

End RasterExtraFacts.

(** ** Simulated data *)

Section SimulacionFacts.
Import Simulacion.

Lemma ltb_true (a b : Q) : ltb a b = true <-> a < b.
Proof.
  unfold ltb. rewrite negb_true_iff. split; intro H.
  - apply Qnot_le_lt. intro L. apply Qle_bool_iff in L. congruence.
  - destruct (Qle_bool b a) eqn:E; [|reflexivity].
    apply Qle_bool_iff in E. exfalso. exact (Qlt_not_le _ _ H E).
Qed.

Lemma ltb_false (a b : Q) : ltb a b = false <-> b <= a.
Proof. unfold ltb. rewrite negb_false_iff. apply Qle_bool_iff. Qed.

Lemma redondear_par_piso (x : Q) :
  (Qfloor x <= redondear_par x <= Qfloor x + 1)%Z.
Proof.
  unfold redondear_par. cbv zeta.
  destruct (ltb (x - inject_Z (Qfloor x)) (1 # 2)); [lia|].
  destruct (ltb (1 # 2) (x - inject_Z (Qfloor x))); [lia|].
  destruct (Z.even (Qfloor x)); lia.
Qed.

Lemma redondear_par_ge (k : Z) (x : Q) :
  inject_Z k <= x -> (k <= redondear_par x)%Z.
Proof.
  intro H. pose proof (redondear_par_piso x) as [P _].
  assert (F : (k <= Qfloor x)%Z).
  { rewrite <- (Qfloor_Z k). apply Qfloor_resp_le. exact H. }
  lia.
Qed.

Lemma redondear_par_le (k : Z) (x : Q) :
  x <= inject_Z k -> (redondear_par x <= k)%Z.
Proof.
  intro H. pose proof (redondear_par_piso x) as [_ P].
  assert (F : (Qfloor x <= k)%Z).
  { rewrite <- (Qfloor_Z k). apply Qfloor_resp_le. exact H. }
  destruct (Z.eq_dec (Qfloor x) k) as [E|N]; [|lia].
  unfold redondear_par. cbv zeta. rewrite E.
  assert (L : inject_Z k <= x) by (rewrite <- E; apply Qfloor_le).
  rewrite (proj2 (ltb_true (x - inject_Z k) (1 # 2))) by lra. lia.
Qed.

Lemma round2_ge (k : Z) (x : Q) :
  inject_Z k <= x * 100 -> inject_Z k / 100 <= round2 x.
Proof.
  intro H. apply redondear_par_ge in H. rewrite Zle_Qle in H.
  unfold round2, Qdiv. apply Qmult_le_compat_r; [exact H|discriminate].
Qed.

Lemma round2_le (k : Z) (x : Q) :
  x * 100 <= inject_Z k -> round2 x <= inject_Z k / 100.
Proof.
  intro H. apply redondear_par_le in H. rewrite Zle_Qle in H.
  unfold round2, Qdiv. apply Qmult_le_compat_r; [exact H|discriminate].
Qed.

Lemma round2_ge_Z (a : Z) (x : Q) : inject_Z a <= x -> inject_Z a <= round2 x.
Proof.
  intro H.
  assert (K : inject_Z (a * 100) <= x * 100).
  { rewrite inject_Z_mult. change (inject_Z 100) with 100. lra. }
  apply round2_ge in K. rewrite inject_Z_mult in K.
  change (inject_Z 100) with 100 in K. unfold Qdiv in K.
  change (/ 100) with (1 # 100) in K. lra.
Qed.

Lemma round2_le_Z (a : Z) (x : Q) : x <= inject_Z a -> round2 x <= inject_Z a.
Proof.
  intro H.
  assert (K : x * 100 <= inject_Z (a * 100)).
  { rewrite inject_Z_mult. change (inject_Z 100) with 100. lra. }
  apply round2_le in K. rewrite inject_Z_mult in K.
  change (inject_Z 100) with 100 in K. unfold Qdiv in K.
  change (/ 100) with (1 # 100) in K. lra.
Qed.

(** A row made from valid draws: it exists, and its slope stays in the
    range of its hazard after rounding. *)
Lemma generar_fila_casos (s : sorteo) :
  sorteo_valido s ->
  exists valor min_p max_p,
    caso_amenaza (s_amenaza s) valor min_p max_p /\
    inject_Z min_p <= round2 (s_pendiente s) /\
    round2 (s_pendiente s) <= inject_Z max_p /\
    (10 <= inject_Z (s_distancia s) /\ inject_Z (s_distancia s) <= 499) /\
    (0 <= s_azar s /\ s_azar s < 25) /\
    generar_fila s =
      Some (mk_fila_torre (s_amenaza s) valor (round2 (s_pendiente s))
              (clasificar_pendiente (round2 (s_pendiente s)))
              (s_historial s) (s_distancia s)
              (round2 (indice_compuesto valor (round2 (s_pendiente s))
                         (s_historial s) (s_distancia s) (s_azar s)))
              (clasificar_riesgo
                 (round2 (indice_compuesto valor (round2 (s_pendiente s))
                            (s_historial s) (s_distancia s) (s_azar s))))).
Proof.
  intros [Hcat [Hpend [[Hd1 Hd2] Hazar]]].
  assert (Hd : 10 <= inject_Z (s_distancia s) /\ inject_Z (s_distancia s) <= 499).
  { split.
    - change 10 with (inject_Z 10). rewrite <- Zle_Qle. exact Hd1.
    - change 499 with (inject_Z 499). rewrite <- Zle_Qle. lia. }
  unfold generar_fila.
  simpl in Hcat.
  destruct Hcat as [E|[E|[E|[E|[E|[]]]]]]; rewrite <- E in *;
    (destruct (Hpend _ _ eq_refl) as [P1 P2]);
    [exists 1%Z, 0%Z, 10%Z | exists 2%Z, 10%Z, 20%Z | exists 3%Z, 20%Z, 30%Z
     | exists 4%Z, 30%Z, 40%Z | exists 5%Z, 40%Z, 60%Z];
    (split; [unfold caso_amenaza; tauto|]);
    (split; [apply round2_ge_Z; exact P1|]);
    (split; [apply round2_le_Z; apply Qlt_le_weak; exact P2|]);
    (split; [exact Hd|]); (split; [exact Hazar|]); reflexivity.
Qed.

Ltac por_caso H :=
  destruct H as [[Ha [Hv [Hmin Hmax]]]|[[Ha [Hv [Hmin Hmax]]]|[[Ha [Hv [Hmin Hmax]]]
                |[[Ha [Hv [Hmin Hmax]]]|[Ha [Hv [Hmin Hmax]]]]]]];
  subst.

Ltac aritmetica_indice :=
  unfold indice_compuesto, Qdiv;
  change (/ 60) with (1 # 60); change (/ 500) with (1 # 500);
  repeat match goal with
         | |- context [inject_Z (Zpos ?p)] =>
             change (inject_Z (Zpos p)) with (Zpos p # 1)
         | H : context [inject_Z (Zpos ?p)] |- _ =>
             change (inject_Z (Zpos p)) with (Zpos p # 1) in H
         | H : context [inject_Z 0] |- _ => change (inject_Z 0) with 0 in H
         end;
  match goal with
  | |- context [if ?b then _ else _] => destruct b
  | _ => idtac
  end; lra.

(** X17: for draws in the ranges numpy guarantees, a tower row is made
    (no KeyError); its rounded slope stays within the closed range of
    its hazard, so the slope class is 'Baja' for hazard Muy Baja, 'Alta'
    for hazards Alta and Muy Alta, 'Baja' or 'Media' for hazard Baja,
    and 'Media' for hazard Media unless the slope rounds up to 30.00,
    which is classified 'Alta'. *)
Theorem X17_simulated_slope_class (s : sorteo) :
  sorteo_valido s ->
  exists fila,
    generar_fila s = Some fila /\
    Simulacion.Amenaza_SGC fila = s_amenaza s /\
    (forall min_p max_p, pendiente_base (s_amenaza s) = Some (min_p, max_p) ->
       min_p <= Pendiente_Grados fila /\ Pendiente_Grados fila <= max_p) /\
    (s_amenaza s = "Muy Baja"%string -> Pendiente_Clase fila = "Baja"%string) /\
    (s_amenaza s = "Baja"%string ->
       Pendiente_Clase fila = "Baja"%string \/ Pendiente_Clase fila = "Media"%string) /\
    (s_amenaza s = "Media"%string ->
       Pendiente_Clase fila = "Media"%string \/
       (Pendiente_Clase fila = "Alta"%string /\ Pendiente_Grados fila == 30)) /\
    (s_amenaza s = "Alta"%string \/ s_amenaza s = "Muy Alta"%string ->
       Pendiente_Clase fila = "Alta"%string).
Proof.
  intro H. destruct (generar_fila_casos s H) as
    [valor [min_p [max_p [Hc [P1 [P2 [_ [_ E]]]]]]]].
  eexists. split; [exact E|]. cbn [Simulacion.Amenaza_SGC Pendiente_Grados Pendiente_Clase].
  split; [reflexivity|].
  set (P := round2 (s_pendiente s)) in *. clearbody P.
  unfold clasificar_pendiente.
  por_caso Hc; rewrite Ha;
    change (inject_Z 0) with 0 in *; change (inject_Z 10) with 10 in *;
    change (inject_Z 20) with 20 in *; change (inject_Z 30) with 30 in *;
    change (inject_Z 40) with 40 in *; change (inject_Z 60) with 60 in *.
  - split; [intros ? ? K; vm_compute in K; injection K as <- <-; split; assumption|].
    rewrite (proj2 (ltb_true P 15)) by lra.
    repeat split; try discriminate; intros [K|K]; discriminate K.
  - split; [intros ? ? K; vm_compute in K; injection K as <- <-; split; assumption|].
    rewrite (proj2 (ltb_true P 30)) by lra.
    split; [discriminate|]. split.
    + intros _. destruct (ltb P 15); auto.
    + split; [discriminate|]. intros [K|K]; discriminate K.
  - split; [intros ? ? K; vm_compute in K; injection K as <- <-; split; assumption|].
    rewrite (proj2 (ltb_false P 15)) by lra.
    split; [discriminate|]. split; [discriminate|]. split.
    + intros _. destruct (ltb P 30) eqn:L; [left; reflexivity|].
      apply ltb_false in L. right. split; [reflexivity|]. lra.
    + intros [K|K]; discriminate K.
  - split; [intros ? ? K; vm_compute in K; injection K as <- <-; split; assumption|].
    rewrite (proj2 (ltb_false P 15)), (proj2 (ltb_false P 30)) by lra.
    repeat split; try discriminate.
  - split; [intros ? ? K; vm_compute in K; injection K as <- <-; split; assumption|].
    rewrite (proj2 (ltb_false P 15)), (proj2 (ltb_false P 30)) by lra.
    repeat split; try discriminate.
Qed.

Lemma sorteo_ejemplo_valido :
  sorteo_valido (mk_sorteo "Muy Alta" 50 true 100 10).
Proof.
  unfold sorteo_valido. cbn [s_amenaza s_pendiente s_distancia s_azar].
  split; [simpl; tauto|]. split.
  - intros min_p max_p K. vm_compute in K. injection K as <- <-.
    split; [unfold Qle|unfold Qlt]; simpl; lia.
  - split; [lia|]. split; [unfold Qle|unfold Qlt]; simpl; lia.
Qed.

Lemma X17_witness :
  exists fila,
    generar_fila (mk_sorteo "Muy Alta" 50 true 100 10) = Some fila /\
    Pendiente_Clase fila = "Alta"%string.
Proof.
  destruct (X17_simulated_slope_class (mk_sorteo "Muy Alta" 50 true 100 10)
              sorteo_ejemplo_valido) as [fila [E [_ [_ [_ [_ [_ H]]]]]]].
  exists fila. split; [exact E|]. apply H. right. reflexivity.
Defined.

(** X18: the composite index of a row made from valid draws lies above
    15 and is at most 159.70; it is not confined to the 0-100 scale the
    comment and the dashboard give it: for a tower of hazard Muy Alta
    with an event history it is always above 100. *)
Theorem X18_risk_index_range (s : sorteo) (fila : fila_torre) :
  sorteo_valido s ->
  generar_fila s = Some fila ->
  15 < Indice_Riesgo fila /\ Indice_Riesgo fila <= 1597 # 10 /\
  (s_amenaza s = "Muy Alta"%string -> s_historial s = true ->
     100 < Indice_Riesgo fila).
Proof.
  intros H E. destruct (generar_fila_casos s H) as
    [valor [min_p [max_p [Hc [P1 [P2 [[D1 D2] [[A1 A2] E']]]]]]]].
  rewrite E' in E. injection E as <-. cbn [Indice_Riesgo].
  set (P := round2 (s_pendiente s)) in *. clearbody P.
  set (d := inject_Z (s_distancia s)) in *.
  assert (Hlo : inject_Z 1503 / 100
                <= round2 (indice_compuesto valor P (s_historial s)
                             (s_distancia s) (s_azar s))).
  { apply round2_ge. unfold indice_compuesto. fold d. clearbody d. por_caso Hc; aritmetica_indice. }
  assert (Hhi : round2 (indice_compuesto valor P (s_historial s)
                          (s_distancia s) (s_azar s))
                <= inject_Z 15970 / 100).
  { apply round2_le. unfold indice_compuesto. fold d. clearbody d. por_caso Hc; aritmetica_indice. }
  unfold Qdiv in Hlo, Hhi. change (/ 100) with (1 # 100) in Hlo, Hhi.
  change (inject_Z 1503) with 1503 in Hlo. change (inject_Z 15970) with 15970 in Hhi.
  split; [lra|]. split; [lra|].
  intros Hma Hh.
  assert (H100 : inject_Z 101
                 <= round2 (indice_compuesto valor P (s_historial s)
                              (s_distancia s) (s_azar s))).
  { apply round2_ge_Z. unfold indice_compuesto. fold d. clearbody d. rewrite Hh.
    por_caso Hc; try (rewrite Ha in Hma; discriminate Hma).
    unfold Qdiv.
    change (/ 60) with (1 # 60); change (/ 500) with (1 # 500).
    change (inject_Z 5) with 5. change (inject_Z 101) with 101.
    change (inject_Z 40) with 40 in P1. lra. }
  change (inject_Z 101) with 101 in H100. lra.
Qed.

Lemma X18_witness :
  exists fila,
    generar_fila (mk_sorteo "Muy Alta" 50 true 100 10) = Some fila /\
    100 < Indice_Riesgo fila.
Proof.
  destruct (generar_fila (mk_sorteo "Muy Alta" 50 true 100 10)) as [fila|] eqn:E;
    [|vm_compute in E; discriminate].
  exists fila. split; [reflexivity|].
  destruct (X18_risk_index_range _ fila sorteo_ejemplo_valido E) as [_ [_ H]].
  apply H; reflexivity.
Defined.

(** X19: the risk class of a row made from valid draws is 'Alto' for
    every tower of hazard Alta or Muy Alta, and can be 'Bajo' only for a
    tower of hazard Muy Baja. *)
Theorem X19_risk_class_by_hazard (s : sorteo) (fila : fila_torre) :
  sorteo_valido s ->
  generar_fila s = Some fila ->
  (s_amenaza s = "Alta"%string \/ s_amenaza s = "Muy Alta"%string ->
     Simulacion.Clasificacion_Riesgo fila = "Alto"%string) /\
  (Simulacion.Clasificacion_Riesgo fila = "Bajo"%string ->
     s_amenaza s = "Muy Baja"%string).
Proof.
  intros H E. destruct (generar_fila_casos s H) as
    [valor [min_p [max_p [Hc [P1 [P2 [[D1 D2] [[A1 A2] E']]]]]]]].
  rewrite E' in E. injection E as <-. cbn [Simulacion.Clasificacion_Riesgo].
  set (P := round2 (s_pendiente s)) in *. clearbody P.
  set (d := inject_Z (s_distancia s)) in *.
  set (idx := round2 (indice_compuesto valor P (s_historial s)
                        (s_distancia s) (s_azar s))).
  assert (H30 : s_amenaza s <> "Muy Baja"%string -> 30 <= idx).
  { intro N. change 30 with (inject_Z 30). apply round2_ge_Z.
    unfold indice_compuesto. fold d. clearbody d.
    por_caso Hc; try contradiction; aritmetica_indice. }
  assert (H60 : s_amenaza s = "Alta"%string \/ s_amenaza s = "Muy Alta"%string ->
                60 <= idx).
  { intro N. change 60 with (inject_Z 60). apply round2_ge_Z.
    unfold indice_compuesto. fold d. clearbody d.
    por_caso Hc; try (destruct N as [N|N]; rewrite Ha in N; discriminate N);
      aritmetica_indice. }
  clearbody idx. unfold clasificar_riesgo. split.
  - intro N. specialize (H60 N).
    rewrite (proj2 (ltb_false idx 30)), (proj2 (ltb_false idx 60)) by lra.
    reflexivity.
  - intro B.
    destruct (string_dec (s_amenaza s) "Muy Baja") as [Y|N]; [exact Y|].
    specialize (H30 N). rewrite (proj2 (ltb_false idx 30)) in B by lra.
    destruct (ltb idx 60); discriminate B.
Qed.

Lemma X19_witness :
  exists fila,
    generar_fila (mk_sorteo "Muy Alta" 50 true 100 10) = Some fila /\
    Simulacion.Clasificacion_Riesgo fila = "Alto"%string.
Proof.
  destruct (generar_fila (mk_sorteo "Muy Alta" 50 true 100 10)) as [fila|] eqn:E;
    [|vm_compute in E; discriminate].
  exists fila. split; [reflexivity|].
  destruct (X19_risk_class_by_hazard _ fila sorteo_ejemplo_valido E) as [H _].
  apply H. right. reflexivity.
Defined.

(** X20: every simulated tower carries a hazard level that has a row in
    the default threshold matrix, with the numeric value 1 to 5 of that
    level: the dashboard never takes the unknown-level path for it, and
    its priority is 1, 2 or 3 for every rainfall value. *)
Theorem X20_simulated_hazard_is_known (s : sorteo) (fila : fila_torre) (v : Q) :
  sorteo_valido s ->
  generar_fila s = Some fila ->
  In (Simulacion.Amenaza_SGC fila) (map Amenaza_Nivel umbrales_por_defecto) /\
  mapa_amenaza_num (Simulacion.Amenaza_SGC fila) = Some (Amenaza_Valor fila) /\
  (1 <= Amenaza_Valor fila <= 5)%Z /\
  (1 <= snd (calcular_nivel_alerta (Simulacion.Amenaza_SGC fila) v
                                   umbrales_por_defecto) <= 3)%Z.
Proof.
  intros H E. destruct (generar_fila_casos s H) as
    [valor [min_p [max_p [Hc [_ [_ [_ [_ E']]]]]]]].
  rewrite E' in E. injection E as <-.
  cbn [Simulacion.Amenaza_SGC Amenaza_Valor].
  assert (Hin : In (s_amenaza s) (map Amenaza_Nivel umbrales_por_defecto)).
  { por_caso Hc; rewrite Ha; simpl; tauto. }
  split; [exact Hin|]. split; [por_caso Hc; rewrite Ha; reflexivity|].
  split; [por_caso Hc; lia|].
  destruct (seleccionar_presente _ _ Hin) as [f [rest S]].
  rewrite (nivel_prioridad _ _ v f rest S).
  destruct (decision _ _ v); simpl; lia.
Qed.

Lemma X20_witness :
  exists fila,
    generar_fila (mk_sorteo "Muy Alta" 50 true 100 10) = Some fila /\
    In (Simulacion.Amenaza_SGC fila) (map Amenaza_Nivel umbrales_por_defecto).
Proof.
  destruct (generar_fila (mk_sorteo "Muy Alta" 50 true 100 10)) as [fila|] eqn:E;
    [|vm_compute in E; discriminate].
  exists fila. split; [reflexivity|].
  destruct (X20_simulated_hazard_is_known _ fila 0 sorteo_ejemplo_valido E)
    as [H _].
  exact H.
Defined.

(** X21: after the costs are reset, the event table has the same rows
    in the same order with their identifiers and impact flags
    unchanged; an event that did not affect the infrastructure has cost
    0, an event that did keeps the cost that was drawn, and resetting
    again changes nothing. *)
Theorem X21_event_costs (df_eventos : list evento) :
  map Evento_ID (anular_costos df_eventos) = map Evento_ID df_eventos /\
  map Afecto_Infraestructura (anular_costos df_eventos)
    = map Afecto_Infraestructura df_eventos /\
  (forall e, In e (anular_costos df_eventos) ->
     Costo_Reparacion_USD e <> 0%Z -> Afecto_Infraestructura e = true) /\
  (forall e, In e df_eventos -> Afecto_Infraestructura e = true ->
     In e (anular_costos df_eventos)) /\
  anular_costos (anular_costos df_eventos) = anular_costos df_eventos.
Proof.
  unfold anular_costos. repeat split.
  - rewrite map_map. apply map_ext. intro e.
    destruct (Afecto_Infraestructura e); reflexivity.
  - rewrite map_map. apply map_ext. intro e.
    destruct (Afecto_Infraestructura e) eqn:A; cbn; [exact A|reflexivity].
  - intros e He Hc. apply in_map_iff in He. destruct He as [e0 [<- _]].
    destruct (Afecto_Infraestructura e0) eqn:A; cbn in *; [exact A|].
    exfalso. apply Hc. reflexivity.
  - intros e He A. apply in_map_iff. exists e. rewrite A. split; [reflexivity|exact He].
  - rewrite map_map. apply map_ext. intro e.
    destruct (Afecto_Infraestructura e) eqn:A; cbn; rewrite ?A; reflexivity.
Qed.

End SimulacionFacts.
